(** * process-manager-mcp: the supervision core of [src/process-manager.ts]

    A shallow embedding of the [ProcessManager] class: the persisted
    registry (a [Conf] store keyed by working directory, each partition
    an object keyed by process key), the in-memory table of live
    handles, and the operations [startProcess], [endProcess],
    [checkProcessHealth], [cleanup], [cleanupStaleAutoShutdownProcesses],
    [getAllProcessesInDirectory] and [getProcessLogs].

    Modelling decisions.
    - A JavaScript object used as a dictionary is an association list in
      insertion order: [Object.entries] walks it in that order and
      [endProcess] and [getProcessLogs] stop at the first match, so order
      is observable.  Keys of a well-formed object are pairwise distinct
      ([store_ok]).  Keys here are paths and [command_timestamp] strings,
      never canonical array indices, so insertion order is the
      enumeration order.
    - [Conf] is used through [store], [get key default] and [set key value];
      every read yields a fresh copy, so a snapshot taken before a loop is
      not affected by writes made inside the loop.  [Conf] reads the key of
      [get] and [set] as a path cut at every dot.  For a key without a dot
      that is the top-level property of that name, as the [ConfigSchema]
      type declares, and this is what [conf_get] and [conf_set] are.  The
      document as [Conf] keeps it for dotted keys too is modelled in
      [DotPath]; on registries whose directories are plain keys
      ([plainStore]) the two agree, and the statements that relate keyed
      access to a walk over [config.store] are made for such registries.
    - The operating system is a record of oracles: whether the liveness
      probe [process.kill(pid, 0)] returns, whether sending [SIGTERM]
      returns or throws.
    - Numbers that the code uses as integers (pids, timestamps, line
      counts) are [Z]. *)

From Stdlib Require Import List String Ascii ZArith Lia Bool DecimalString.
From Stdlib Require Import DecimalZ.
Import ListNotations.
Open Scope string_scope.
Open Scope Z_scope.

Set Implicit Arguments.

(** ** JavaScript values used by the class *)

(** Truthiness of a string: only the empty string is falsy. *)
Definition truthy (s : string) : bool := negb (s =? "")%string.

(** [a || b] on an optional string and a string. *)
Definition orElse (a : option string) (b : string) : string :=
  match a with
  | Some s => if truthy s then s else b
  | None => b
  end.

(** Template-literal rendering of an integer. *)
Definition show (n : Z) : string := NilZero.string_of_int (Z.to_int n).

(** ** Objects as dictionaries *)

Section Obj.
Variable V : Type.

Definition Obj := list (string * V).

(** [o[k]] *)
Fixpoint obj_get (o : Obj) (k : string) : option V :=
  match o with
  | [] => None
  | (k', v) :: rest => if (k' =? k)%string then Some v else obj_get rest k
  end.

(** [o[k] = v]: an existing key keeps its place, a new key goes last. *)
Fixpoint obj_set (k : string) (v : V) (o : Obj) : Obj :=
  match o with
  | [] => [(k, v)]
  | (k', v') :: rest =>
      if (k' =? k)%string then (k, v) :: rest else (k', v') :: obj_set k v rest
  end.

(** [delete o[k]] *)
Fixpoint obj_del (k : string) (o : Obj) : Obj :=
  match o with
  | [] => []
  | (k', v') :: rest =>
      if (k' =? k)%string then obj_del k rest else (k', v') :: obj_del k rest
  end.

Definition keys (o : Obj) : list string := map fst o.

(** Pairwise distinct keys, as a boolean. *)
Fixpoint distinct (l : list string) : bool :=
  match l with
  | [] => true
  | k :: rest => negb (existsb (String.eqb k) rest) && distinct rest
  end.
End Obj.

Arguments obj_get {V} o k.
Arguments obj_set {V} k v o.
Arguments obj_del {V} k o.
Arguments keys {V} o.

(** ** Data model *)

Inductive ProcessStatus := running | stopped | crashed.

Definition status_eqb (a b : ProcessStatus) : bool :=
  match a, b with
  | running, running | stopped, stopped | crashed, crashed => true
  | _, _ => false
  end.

Record ProcessData := mkProcessData {
  pid : Z;
  command : string;
  cwd : string;
  status : ProcessStatus;
  startTime : Z;
  autoShutdown : bool;
  logFile : option string;
  errorOutput : option string
}.

Definition with_status (s : ProcessStatus) (d : ProcessData) : ProcessData :=
  mkProcessData (pid d) (command d) (cwd d) s (startTime d) (autoShutdown d)
                (logFile d) (errorOutput d).

Definition with_errorOutput (e : string) (d : ProcessData) : ProcessData :=
  mkProcessData (pid d) (command d) (cwd d) (status d) (startTime d)
                (autoShutdown d) (logFile d) (Some e).

(** [ConfigSchema]: working directory -> process key -> record. *)
Definition Partition := Obj ProcessData.
Definition ConfigSchema := Obj Partition.

(** [config.get(key, {})] for a key that holds no dot; [DotPath.get] below
    is the general case. *)
Definition conf_get (c : ConfigSchema) (key : string) : Partition :=
  match obj_get c key with
  | Some p => p
  | None => []
  end.

(** [config.set(key, value)] for a key that holds no dot; [DotPath.set]
    below is the general case. *)
Definition conf_set (key : string) (value : Partition) (c : ConfigSchema) : ConfigSchema :=
  obj_set key value c.

(** The record stored under partition [d] and key [k], if any. *)
Definition lookupRec (c : ConfigSchema) (d k : string) : option ProcessData :=
  obj_get (conf_get c d) k.

(** Well-formed persisted document: distinct, non-empty partition keys and,
    in every partition, distinct, non-empty process keys. *)
Definition partition_ok (p : Partition) : bool :=
  distinct (keys p) && forallb truthy (keys p).

Definition store_ok (c : ConfigSchema) : bool :=
  distinct (keys c) && forallb truthy (keys c) && forallb partition_ok (map snd c).

(** The operating system as seen by one call. *)
Record OS := mkOS {
  probe : Z -> bool;       (* process.kill(pid, 0) returns (does not throw) *)
  sigterm : Z -> bool;     (* process.kill(pid, "SIGTERM") returns *)
  handleKill : Z -> bool   (* runningProcess.kill("SIGTERM") returns *)
}.

(** The supervisor instance. [runningProcesses] is the key set of the
    [Map<number, ResultPromise>]; the handles themselves carry no data the
    class reads. *)
Record ProcessManager := mkManager {
  config : ConfigSchema;
  runningProcesses : list Z;
  currentCwd : string;
  logDir : string
}.

Definition with_config (c : ConfigSchema) (m : ProcessManager) : ProcessManager :=
  mkManager c (runningProcesses m) (currentCwd m) (logDir m).

Definition with_running (r : list Z) (m : ProcessManager) : ProcessManager :=
  mkManager (config m) r (currentCwd m) (logDir m).

(** [Map.prototype.has / set / delete] on the handle table. *)
Definition hasHandle (m : ProcessManager) (p : Z) : bool :=
  existsb (Z.eqb p) (runningProcesses m).

Definition setHandle (p : Z) (m : ProcessManager) : ProcessManager :=
  if hasHandle m p then m else with_running (runningProcesses m ++ [p]) m.

Definition deleteHandle (p : Z) (m : ProcessManager) : ProcessManager :=
  with_running (filter (fun q => negb (q =? p)) (runningProcesses m)) m.

(** ** Registry accessors of the class *)

Definition storeProcessData (processKey : string) (data : ProcessData)
           (dir : option string) (m : ProcessManager) : ProcessManager :=
  let targetCwd := orElse dir (currentCwd m) in
  let cfg := conf_get (config m) targetCwd in
  with_config (conf_set targetCwd (obj_set processKey data cfg) (config m)) m.

Definition updateProcessData (processKey : string) (data : ProcessData)
           (dir : option string) (m : ProcessManager) : ProcessManager :=
  let targetCwd := orElse dir (currentCwd m) in
  let cfg := conf_get (config m) targetCwd in
  match obj_get cfg processKey with
  | Some _ => with_config (conf_set targetCwd (obj_set processKey data cfg) (config m)) m
  | None => m
  end.

Definition removeProcessData (processKey : string) (dir : option string)
           (m : ProcessManager) : ProcessManager :=
  let targetCwd := orElse dir (currentCwd m) in
  let cfg := conf_get (config m) targetCwd in
  with_config (conf_set targetCwd (obj_del processKey cfg) (config m)) m.

Definition getProcessData (processKey : string) (m : ProcessManager) : option ProcessData :=
  obj_get (conf_get (config m) (currentCwd m)) processKey.

Definition getCurrentCwdProcesses (m : ProcessManager) : Partition :=
  conf_get (config m) (currentCwd m).

(** ** Strings and paths *)

Definition LF : ascii := ascii_of_nat 10.
Definition nl : string := String LF EmptyString.

(** [s.split(sep)] for a one-character separator. *)
Fixpoint split (sep : ascii) (s : string) : list string :=
  match s with
  | EmptyString => [EmptyString]
  | String c rest =>
      if (c =? sep)%char then EmptyString :: split sep rest
      else match split sep rest with
           | [] => [String c EmptyString]
           | h :: t => String c h :: t
           end
  end.

(** [l.join(sep)] *)
Fixpoint join (sep : string) (l : list string) : string :=
  match l with
  | [] => EmptyString
  | [x] => x
  | x :: rest => x ++ sep ++ join sep rest
  end.

(** [s.startsWith(p)] *)
Definition startsWith (s p : string) : bool := String.prefix p s.

(** [a.slice(start)]: a negative [start] counts from the end; the result
    runs to the end of the array. *)
Definition slice (A : Type) (start : Z) (l : list A) : list A :=
  let len := Z.of_nat (List.length l) in
  let k := if start <? 0 then Z.max (len + start) 0 else Z.min start len in
  skipn (Z.to_nat k) l.

(** POSIX [path.sep]. *)
Definition path_sep : ascii := "/"%char.

Definition isAbsolute (p : string) : bool :=
  match p with
  | String c _ => (c =? path_sep)%char
  | EmptyString => false
  end.

(** Segment normalisation of [path.resolve] for an absolute path: empty
    segments and [.] vanish, [..] drops the segment before it and is
    ignored at the root.  [acc] holds the kept segments, last first. *)
Fixpoint normalizeSegments (segs acc : list string) : list string :=
  match segs with
  | [] => rev acc
  | s :: rest =>
      if ((s =? "") || (s =? "."))%string then normalizeSegments rest acc
      else if (s =? "..")%string then normalizeSegments rest (tl acc)
      else normalizeSegments rest (s :: acc)
  end.

(** [path.resolve(base, p)] on POSIX; [pcwd] is [process.cwd()]. *)
Definition path_resolve (pcwd base p : string) : string :=
  let sep := String path_sep EmptyString in
  let full := if isAbsolute p then p
              else if isAbsolute base then base ++ sep ++ p
              else pcwd ++ sep ++ base ++ sep ++ p in
  sep ++ join sep (normalizeSegments (split path_sep full) []).

(** ** A state-and-exception monad for methods that throw *)

Inductive Result (A : Type) := Ok (a : A) | Throw (msg : string).
Arguments Ok {A} a.
Arguments Throw {A} msg.

Definition M (A : Type) := ProcessManager -> ProcessManager * Result A.

Definition ret (A : Type) (a : A) : M A := fun m => (m, Ok a).
Definition throw (A : Type) (msg : string) : M A := fun m => (m, Throw msg).
Arguments throw {A} msg.
Definition bind (A B : Type) (x : M A) (f : A -> M B) : M B :=
  fun m => match x m with
           | (m', Ok a) => f a m'
           | (m', Throw e) => (m', Throw e)
           end.
Definition modify (f : ProcessManager -> ProcessManager) : M unit :=
  fun m => (f m, Ok tt).
(** [try { x } catch (error) { h error }] *)
Definition try_catch (A : Type) (x : M A) (h : string -> M A) : M A :=
  fun m => match x m with
           | (m', Throw e) => h e m'
           | r => r
           end.

Notation "x <- c ;; k" := (bind c (fun x => k))
  (at level 61, c at next level, right associativity).
Notation "c ;;; k" := (bind c (fun _ => k))
  (at level 61, right associativity).

(** ** startProcess *)

Inductive SpawnResult :=
| SpawnThrows (msg : string)            (* execa(...) throws *)
| Spawned (childPid : option Z).        (* childProcess.pid, possibly undefined *)

(** What one call of [startProcess] observes of its environment. *)
Record StartEnv := mkStartEnv {
  envCWD : option string;     (* process.env.CWD *)
  processCwd : string;        (* process.cwd() *)
  nowKey : Z;                 (* Date.now() in generateProcessKey *)
  nowTemp : Z;                (* Date.now() for tempTimestamp *)
  nowStart : Z;               (* Date.now() for startTime *)
  openLog : option string;    (* openSync(path, 'a'): None = opened, Some e = throws e *)
  spawn : SpawnResult
}.

Definition generateProcessKey (command : string) (now : Z) : string :=
  command ++ "_" ++ show now.

(** [path.join(this.logDir, `process_${pid}.log`)], for a normalised
    [logDir] other than the root. *)
Definition getLogFilePath (m : ProcessManager) (n : Z) : string :=
  logDir m ++ "/process_" ++ show n ++ ".log".

(** [baseCwd] and [workingDir] of [startProcess]. *)
Definition baseCwd (env : StartEnv) (current : string) : string :=
  orElse (envCWD env) current.

Definition workingDir (env : StartEnv) (current : string) (dir : option string) : string :=
  match dir with
  | Some c => if truthy c then path_resolve (processCwd env) (baseCwd env current) c
              else baseCwd env current
  | None => baseCwd env current
  end.

(** [if (!childProcess.pid) throw ...; pid = childProcess.pid] *)
Definition requirePid (s : SpawnResult) : M Z :=
  match s with
  | SpawnThrows e => throw e
  | Spawned None => throw "Error: Failed to start process: No PID returned"
  | Spawned (Some p) =>
      if p =? 0 then throw "Error: Failed to start process: No PID returned"
      else ret p
  end.

Definition openSync (env : StartEnv) : M unit :=
  match openLog env with
  | Some e => throw e
  | None => ret tt
  end.

(** The exit and rejection callbacks registered here run later; they are
    [onExit] and [onReject] below.  The [env] argument of the method only
    reaches the child process and is left out. *)
Definition startProcess (env : StartEnv) (command : string) (autoSd : bool)
           (dir : option string) : M Z :=
  fun m0 =>
  let processKey := generateProcessKey command (nowKey env) in
  let wd := workingDir env (currentCwd m0) dir in
  try_catch
    (pl <- (if negb autoSd then
              (let actualLogFilePath := getLogFilePath m0 (nowTemp env) in
               openSync env ;;;
               p <- requirePid (spawn env) ;;
               ret (p, actualLogFilePath))
            else
              (p <- requirePid (spawn env) ;;
               ret (p, getLogFilePath m0 p))) ;;
     let '(p, actualLogFilePath) := pl in
     modify (setHandle p) ;;;
     let processData :=
       mkProcessData p command wd running (nowStart env) autoSd
                     (Some actualLogFilePath) None in
     modify (storeProcessData processKey processData None) ;;;
     ret p)
    (fun e => throw ("Failed to start process: " ++ e))
    m0.

(** [childProcess.on("exit", (code, signal) => ...)], ephemeral processes only. *)
Definition showCode (code : option Z) : string :=
  match code with Some c => show c | None => "null" end.

Definition showSignal (signal : option string) : string :=
  match signal with Some s => s | None => "null" end.

Definition onExit (processKey : string) (p : Z) (code : option Z)
           (signal : option string) (m : ProcessManager) : ProcessManager :=
  let m1 := deleteHandle p m in
  match getProcessData processKey m1 with
  | Some processData =>
      let processData' :=
        match code with
        | Some 0 => with_status stopped processData
        | _ => with_errorOutput
                 ("Process exited with code " ++ showCode code ++ ", signal: "
                  ++ showSignal signal)
                 (with_status crashed processData)
        end in
      updateProcessData processKey processData' None m1
  | None => m1
  end.

(** [childProcess.catch((error) => ...)] *)
Definition onReject (processKey : string) (message : string)
           (m : ProcessManager) : ProcessManager :=
  match getProcessData processKey m with
  | Some processData =>
      if status_eqb (status processData) running then
        updateProcessData processKey
          (with_errorOutput ("Process failed: " ++ message)
                            (with_status crashed processData)) None m
      else m
  | None => m
  end.

(** ** endProcess *)

(** The inner loop: first entry of a partition whose [pid] matches. *)
Fixpoint findInPartition (p : Z) (processes : Partition) : option (string * ProcessData) :=
  match processes with
  | [] => None
  | (key, data) :: rest =>
      if pid data =? p then Some (key, data) else findInPartition p rest
  end.

(** The outer loop over [Object.entries(this.config.store)]. *)
Fixpoint findByPid (p : Z) (allConfigs : ConfigSchema)
  : option (string * string * ProcessData) :=
  match allConfigs with
  | [] => None
  | (dir, processes) :: rest =>
      match findInPartition p processes with
      | Some (key, data) => Some (dir, key, data)
      | None => findByPid p rest
      end
  end.

(** The [try { ... kill ... } catch { killSuccess = false }] block, run when
    the probe succeeded. *)
Definition tryKill (os : OS) (p : Z) (m : ProcessManager) : ProcessManager * bool :=
  if hasHandle m p then
    if handleKill os p then (deleteHandle p m, true) else (m, false)
  else
    if sigterm os p then (m, true) else (m, false).

Definition endProcess (os : OS) (p : Z) (m : ProcessManager) : ProcessManager * bool :=
  match findByPid p (config m) with
  | None => (m, false)
  | Some (processCwd, processKey, processToKill) =>
      if negb (truthy processKey) || negb (truthy processCwd) then (m, false)
      else
        let processIsAlive := probe os (pid processToKill) in
        let '(m1, killSuccess) :=
          if processIsAlive then tryKill os (pid processToKill) m else (m, false) in
        (removeProcessData processKey (Some processCwd) m1,
         killSuccess || negb processIsAlive)
  end.

(** ** cleanupStaleAutoShutdownProcesses *)

Definition isStale (os : OS) (processData : ProcessData) : bool :=
  let isAlive := probe os (pid processData) in
  negb isAlive || negb (status_eqb (status processData) running).

Definition cleanupStaleStep (os : OS) (dir : string) (c : ConfigSchema)
           (entry : string * ProcessData) : ConfigSchema :=
  let '(processKey, processData) := entry in
  if autoShutdown processData then
    if isStale os processData then
      let cwdConfig := conf_get c dir in
      conf_set dir (obj_del processKey cwdConfig) c
    else c
  else c.

Definition cleanupStaleAutoShutdownProcesses (os : OS) (m : ProcessManager)
  : ProcessManager :=
  let allConfigs := config m in
  with_config
    (fold_left (fun c (part : string * Partition) =>
                  fold_left (cleanupStaleStep os (fst part)) (snd part) c)
               allConfigs (config m))
    m.

(** The constructor: [this.currentCwd = cwd || process.env.CWD || process.cwd()],
    then the start-up reconciliation over the persisted document. *)
Definition construct (os : OS) (persisted : ConfigSchema) (dirArg envCwd : option string)
           (pcwd home : string) : ProcessManager :=
  cleanupStaleAutoShutdownProcesses os
    (mkManager persisted [] (orElse dirArg (orElse envCwd pcwd))
               (home ++ "/.process-manager-mcp/logs")).

(** ** checkProcessHealth *)

Definition checkHealthStep (os : OS) (m : ProcessManager)
           (entry : string * ProcessData) : ProcessManager :=
  let '(processKey, data) := entry in
  if status_eqb (status data) running then
    if probe os (pid data) then m
    else
      let data' := with_status stopped data in
      deleteHandle (pid data) (updateProcessData processKey data' None m)
  else m.

Definition checkProcessHealth (os : OS) (m : ProcessManager) : ProcessManager :=
  let processes := getCurrentCwdProcesses m in
  fold_left (checkHealthStep os) processes m.

(** ** cleanup *)

(** The signals sent are effects on the operating system only: a failed
    kill is swallowed and the handle table is not touched. *)
Definition cleanupStep (m : ProcessManager) (entry : string * ProcessData)
  : ProcessManager :=
  let '(processKey, data) := entry in
  if autoShutdown data then removeProcessData processKey None m else m.

Definition cleanup (m : ProcessManager) : ProcessManager :=
  let processes := getCurrentCwdProcesses m in
  fold_left cleanupStep processes m.

(** The pids [cleanup] signals, in order: auto-shutdown records still
    marked running. *)
Definition cleanupSignals (m : ProcessManager) : list Z :=
  map (fun e => pid (snd e))
      (filter (fun e => autoShutdown (snd e) && status_eqb (status (snd e)) running)
              (getCurrentCwdProcesses m)).

(** ** Queries *)

(** [`${cwd}::${processKey}`] *)
Definition compositeKey (dir processKey : string) : string :=
  dir ++ "::" ++ processKey.

Definition addPartition (dir : string) (processes : Partition) (result : Obj ProcessData)
  : Obj ProcessData :=
  fold_left (fun res (e : string * ProcessData) =>
               obj_set (compositeKey dir (fst e)) (snd e) res)
            processes result.

(** The test of the loop body of [getAllProcessesInDirectory]. *)
Definition shouldInclude (sep : ascii) (includeSubdirectories : bool)
           (targetCwd dir : string) : bool :=
  if includeSubdirectories then
    (dir =? targetCwd)%string || startsWith dir (targetCwd ++ String sep EmptyString)
  else (dir =? targetCwd)%string.

Definition getAllProcessesInDirectory (includeSubdirectories : bool)
           (m : ProcessManager) : Obj ProcessData :=
  let targetCwd := currentCwd m in
  fold_left (fun result (part : string * Partition) =>
               if shouldInclude path_sep includeSubdirectories targetCwd (fst part)
               then addPartition (fst part) (snd part) result
               else result)
            (config m) [].

Definition getAllProcesses (m : ProcessManager) : Obj ProcessData :=
  fold_left (fun result (part : string * Partition) =>
               addPartition (fst part) (snd part) result)
            (config m) [].

(** ** getProcessLogs *)

Inductive FileState :=
| Missing                       (* existsSync is false *)
| Unreadable (err : string)     (* readFile rejects *)
| Contents (text : string).

Definition FS := string -> FileState.

(** First value with the pid and a truthy [logFile]. *)
Fixpoint findLogFile (p : Z) (values : list ProcessData) : option string :=
  match values with
  | [] => None
  | data :: rest =>
      match logFile data with
      | Some f => if (pid data =? p) && truthy f then Some f else findLogFile p rest
      | None => findLogFile p rest
      end
  end.

Definition nonEmpty (line : string) : bool := negb (line =? "")%string.

Definition tailOf (content : string) (tailLength : Z) : string :=
  let lines := filter nonEmpty (split LF content) in
  join nl (slice (- tailLength) lines).

Definition getProcessLogs (fs : FS) (p : Z) (tailLength : Z) (m : ProcessManager)
  : string :=
  match findLogFile p (map snd (getAllProcesses m)) with
  | None => "No logs available for this process"
  | Some f =>
      match fs f with
      | Missing => "No logs available for this process"
      | Unreadable e => "Error reading logs: " ++ e
      | Contents content => tailOf content tailLength
      end
  end.

(** ** The superseded copy of the class

    The repository also carries an earlier copy of the class, in which
    [endProcess] and [getProcessLogs] look only at the partition of the
    current directory, the record is removed only when the kill succeeded
    or the status was already final, and the log lines are not filtered. *)

Module Legacy.

Definition endProcess (os : OS) (p : Z) (m : ProcessManager) : ProcessManager * bool :=
  match findInPartition p (getCurrentCwdProcesses m) with
  | None => (m, false)
  | Some (processKey, processToKill) =>
      if negb (truthy processKey) then (m, false)
      else
        let '(m1, killSuccess) := tryKill os (pid processToKill) m in
        if status_eqb (status processToKill) stopped
           || status_eqb (status processToKill) crashed
           || killSuccess
        then (removeProcessData processKey None m1, true)
        else (m1, false)
  end.

Definition getProcessLogs (fs : FS) (p : Z) (tailLength : Z) (m : ProcessManager)
  : string :=
  match findLogFile p (map snd (getCurrentCwdProcesses m)) with
  | None => "No logs available for this process"
  | Some f =>
      match fs f with
      | Missing => "No logs available for this process"
      | Unreadable e => "Error reading logs: " ++ e
      | Contents content => join nl (slice (- tailLength) (split LF content))
      end
  end.

End Legacy.

(** ** Runs of the supervisor *)

Inductive Op :=
| OpStart (env : StartEnv) (command : string) (autoSd : bool) (dir : option string)
| OpEnd (os : OS) (p : Z)
| OpHealth (os : OS)
| OpCleanup
| OpReconcile (os : OS)
| OpExit (processKey : string) (p : Z) (code : option Z) (signal : option string)
| OpReject (processKey : string) (message : string).

Definition exec (m : ProcessManager) (op : Op) : ProcessManager :=
  match op with
  | OpStart env command autoSd dir => fst (startProcess env command autoSd dir m)
  | OpEnd os p => fst (endProcess os p m)
  | OpHealth os => checkProcessHealth os m
  | OpCleanup => cleanup m
  | OpReconcile os => cleanupStaleAutoShutdownProcesses os m
  | OpExit processKey p code signal => onExit processKey p code signal m
  | OpReject processKey message => onReject processKey message m
  end.

Definition run (ops : list Op) (m : ProcessManager) : ProcessManager :=
  fold_left exec ops m.

(** A supervisor over an empty registry. *)
Definition fresh (dir logs : string) : ProcessManager := mkManager [] [] dir logs.

Definition reachable (dir logs : string) (m : ProcessManager) : Prop :=
  exists ops, m = run ops (fresh dir logs).


(** ** Properties named by the specification *)


(** The directory names along a path: what stands between separators.
    The root has none. *)
Definition pathComponents (sep : ascii) (p : string) : list string :=
  filter nonEmpty (split sep p).

(** Descent that respects directory boundaries: [d] lies below [t] when
    the names along [t] are a proper prefix of the names along [d].  Every
    directory other than the root lies below the root. *)
Definition descendant (sep : ascii) (t d : string) : Prop :=
  exists rest, rest <> [] /\ pathComponents sep d = (pathComponents sep t ++ rest)%list.

(** A path in the form [path.resolve] and [process.cwd()] give: the
    separator, then the names joined by the separator. *)
Definition normalised (sep : ascii) (p : string) : Prop :=
  p = (String sep EmptyString
       ++ join (String sep EmptyString) (pathComponents sep p))%string.

(** The last [n] elements of a list, in order. *)
Definition lastn (A : Type) (n : nat) (l : list A) : list A :=
  skipn (List.length l - n)%nat l.

(** The text the specification describes for [getLogs]. *)
Definition lastNonEmptyLines (content : string) (n : nat) : string :=
  join nl (lastn n (filter nonEmpty (split LF content))).

(** A record with this pid exists somewhere in the registry. *)
Definition tracked (c : ConfigSchema) (p : Z) : Prop :=
  exists d k r, lookupRec c d k = Some r /\ pid r = p.

(** Whether the termination signal of [endProcess] is accepted. *)
Definition signalAccepted (os : OS) (m : ProcessManager) (p : Z) : bool :=
  if hasHandle m p then handleKill os p else sigterm os p.

(** ** Auxiliary notions used in the statements *)

(** The records the start-up reconciliation deletes. *)
Definition staleAuto (os : OS) (r : ProcessData) : bool :=
  autoShutdown r && isStale os r.

(** The records the health check rewrites: running, probe failed. *)
Definition foundDead (os : OS) (r : ProcessData) : bool :=
  status_eqb (status r) running && negb (probe os (pid r)).

(** The record a successful start writes. *)
Definition startedRecord (env : StartEnv) (command : string) (autoSd : bool)
           (dir : option string) (m : ProcessManager) (p : Z) : ProcessData :=
  mkProcessData p command (workingDir env (currentCwd m) dir) running (nowStart env)
                autoSd
                (Some (getLogFilePath m (if autoSd then p else nowTemp env)))
                None.



(** A well-formed registry under a non-empty current directory. *)
Definition WF (m : ProcessManager) : Prop :=
  store_ok (config m) = true /\ truthy (currentCwd m) = true.

(** ** Callers

    The [start_process] tool of the server ([src/index.ts]) and the
    [stop --all] command of the command line ([dist/cli.js]).  The command
    is modelled up to its call of [process.exit]: the exit code and the
    supervisor state at that point; the text written to the console is left
    out.  The constructor has registered [cleanup] on the exit of the
    program, so [cleanup] runs on that state afterwards. *)

Record ToolResult := mkToolResult { text : string; isError : bool }.

(** The handler of [start_process]; [`${error}`] of an [Error] with message
    [msg] is ["Error: " ++ msg]. *)
Definition startProcessTool (env : StartEnv) (command : string) (auto_shutdown : bool)
           (dir : option string) (m : ProcessManager) : ProcessManager * ToolResult :=
  match startProcess env command auto_shutdown dir m with
  | (m', Ok p) =>
      if p =? 0
      then (m', mkToolResult
                  "Failed to start process: Error: Process started but no PID was returned"
                  true)
      else (m', mkToolResult ("Process started successfully. PID: " ++ show p) false)
  | (m', Throw msg) =>
      (m', mkToolResult ("Failed to start process: Error: " ++ msg) true)
  end.

(** The counters of [stopAllCommand]. *)
Record StopCounts := mkStopCounts {
  successCount : nat;
  staleCount : nat;
  failureCount : nat
}.

Definition stopAllStep (os : OS) (acc : ProcessManager * StopCounts)
           (entry : string * ProcessData) : ProcessManager * StopCounts :=
  let '(m, n) := acc in
  let data := snd entry in
  let isAlive := probe os (pid data) in
  let '(m', success) := endProcess os (pid data) m in
  if success then
    if negb isAlive
    then (m', mkStopCounts (successCount n) (S (staleCount n)) (failureCount n))
    else (m', mkStopCounts (S (successCount n)) (staleCount n) (failureCount n))
  else (m', mkStopCounts (successCount n) (staleCount n) (S (failureCount n))).

(** [stopAllCommand()]: one [endProcess] per entry of a snapshot of the
    current partition. *)
Definition stopAllCommand (os : OS) (m : ProcessManager)
  : ProcessManager * StopCounts * Z :=
  let processList := getCurrentCwdProcesses m in
  match processList with
  | [] => (m, mkStopCounts 0 0 0, 0)
  | _ =>
      let '(m', n) := fold_left (stopAllStep os) processList (m, mkStopCounts 0 0 0) in
      (m', n, if (0 <? failureCount n)%nat then 1 else 0)
  end.

(** How many entries [stopAllCommand] has counted. *)
Definition totalCount (n : StopCounts) : nat :=
  (successCount n + staleCount n + failureCount n)%nat.

(** ** Further notions used in the statements *)

(** Every stored entry with its partition and key, in enumeration order. *)
Definition allEntries (c : ConfigSchema) : list (string * string * ProcessData) :=
  flat_map (fun part : string * Partition =>
              map (fun e : string * ProcessData => (fst part, fst e, snd e)) (snd part))
           c.

Fixpoint distinctZ (l : list Z) : bool :=
  match l with
  | [] => true
  | x :: rest => negb (existsb (Z.eqb x) rest) && distinctZ rest
  end.

(** No two stored entries carry the same pid. *)
Definition uniquePids (c : ConfigSchema) : bool :=
  distinctZ (map (fun e : string * string * ProcessData => pid (snd e)) (allEntries c)).

Definition pidsUnique (c : ConfigSchema) : Prop :=
  forall d k r d' k' r',
    lookupRec c d k = Some r -> lookupRec c d' k' = Some r' ->
    pid r = pid r' -> (d, k) = (d', k').

(** Operations other than a start. *)
Definition isStart (op : Op) : bool :=
  match op with
  | OpStart _ _ _ _ => true
  | _ => false
  end.

(** The message the exit callback stores for a failed process. *)
Definition exitMessage (code : option Z) (signal : option string) : string :=
  "Process exited with code " ++ showCode code ++ ", signal: " ++ showSignal signal.

(** The record the exit callback writes over [r]. *)
Definition exitedRecord (code : option Z) (signal : option string) (r : ProcessData)
  : ProcessData :=
  match code with
  | Some 0 => with_status stopped r
  | _ => with_errorOutput (exitMessage code signal) (with_status crashed r)
  end.

(** A string holds the character [c]. *)
Fixpoint contains (c : ascii) (s : string) : bool :=
  match s with
  | EmptyString => false
  | String x rest => (x =? c)%char || contains c rest
  end.

(** ** Conf and dotted keys

    [Conf] hands the key of [get] and [set] to its path library: the key
    is cut at every dot and the pieces are followed from the top of the
    document, [set] creating the objects that are missing on the way.  A
    working directory such as [/proj/app.v2] is therefore kept as
    [store["/proj/app"]["v2"]], while [Object.entries(config.store)] walks
    the top level only. *)

(** Pieces the path syntax refuses. *)
Definition refused (piece : string) : bool :=
  ((piece =? "__proto__") || (piece =? "prototype") || (piece =? "constructor"))%string.

(** Keys outside the part of the path syntax modelled here: the empty
    key, and keys with a backslash (the escape of the syntax) or a bracket
    (its index notation). *)
Definition unmodelledKey (key : string) : bool :=
  negb (truthy key)
  || contains "\"%char key || contains "["%char key || contains "]"%char key.

(** Keys that [Conf] takes as one name. *)
Definition plainKey (key : string) : bool :=
  negb (unmodelledKey key) && negb (contains "."%char key) && negb (refused key).

(** A registry whose directories are all plain keys. *)
Definition plainStore (c : ConfigSchema) : bool := forallb plainKey (keys c).

Module DotPath.

(** What the document holds under a name: a process record, or an object
    of further names. *)
#[local] Set Warnings "-register-all".
Inductive Stored :=
| SRec (r : ProcessData)
| SObj (entries : list (string * Stored)).

Definition Tree := list (string * Stored).

(** The pieces of a key; [None] outside the modelled part of the syntax. *)
Definition keyPath (key : string) : option (list string) :=
  if unmodelledKey key then None
  else
    let pieces := split "."%char key in
    if existsb refused pieces then None else Some pieces.

(** [getProperty(object, path)]: [Some None] is [undefined].  A path that
    runs on into the fields of a record is not modelled. *)
Fixpoint getPath (t : Tree) (pieces : list string) : option (option Stored) :=
  match pieces with
  | [] => Some None
  | [k] => Some (obj_get t k)
  | k :: rest =>
      match obj_get t k with
      | None => Some None
      | Some (SObj o) => getPath o rest
      | Some (SRec _) => None
      end
  end.

(** [setProperty(object, path, value)]: a missing object on the way is
    created empty. *)
Fixpoint setPath (t : Tree) (pieces : list string) (value : Stored) : option Tree :=
  match pieces with
  | [] => Some t
  | [k] => Some (obj_set k value t)
  | k :: rest =>
      match obj_get t k with
      | None =>
          match setPath [] rest value with
          | Some o' => Some (obj_set k (SObj o') t)
          | None => None
          end
      | Some (SObj o) =>
          match setPath o rest value with
          | Some o' => Some (obj_set k (SObj o') t)
          | None => None
          end
      | Some (SRec _) => None
      end
  end.

(** [config.get(key, {})], for the keys under which the class keeps
    partitions; a record found where a partition is asked for is not
    modelled. *)
Definition get (t : Tree) (key : string) : option (list (string * Stored)) :=
  match keyPath key with
  | None => None
  | Some pieces =>
      match getPath t pieces with
      | Some None => Some []
      | Some (Some (SObj o)) => Some o
      | Some (Some (SRec _)) => None
      | None => None
      end
  end.

(** [config.set(key, value)] *)
Definition set (key : string) (value : list (string * Stored)) (t : Tree) : option Tree :=
  match keyPath key with
  | None => None
  | Some pieces => setPath t pieces (SObj value)
  end.

(** [storeProcessData] and [removeProcessData] with their target directory. *)
Definition storeProcessData (processKey : string) (data : ProcessData)
           (targetCwd : string) (t : Tree) : option Tree :=
  match get t targetCwd with
  | Some cfg => set targetCwd (obj_set processKey (SRec data) cfg) t
  | None => None
  end.

Definition removeProcessData (processKey targetCwd : string) (t : Tree) : option Tree :=
  match get t targetCwd with
  | Some cfg => set targetCwd (obj_del processKey cfg) t
  | None => None
  end.

(** [Object.entries] of what lies under a top-level name, as the walks
    of the class use it.  The entries of a record are its fields, numbers
    and strings on which every test of those walks fails; they are left
    out. *)
Definition entriesOf (s : Stored) : list (string * Stored) :=
  match s with
  | SObj o => o
  | SRec _ => []
  end.

(** [processData.autoShutdown] as a condition.  An object that is no
    record has that field only as one of its names, and then holds an
    object there. *)
Definition autoShutdownOf (s : Stored) : bool :=
  match s with
  | SRec r => autoShutdown r
  | SObj o => match obj_get o "autoShutdown" with Some _ => true | None => false end
  end.

(** [!isAlive || processData.status !== "running"].  An object that is no
    record has no number as [pid]: the probe throws and counts as dead. *)
Definition staleOf (os : OS) (s : Stored) : bool :=
  match s with
  | SRec r => isStale os r
  | SObj _ => true
  end.

(** The body of the loops of [cleanupStaleAutoShutdownProcesses]. *)
Definition cleanupStaleStep (os : OS) (dir : string) (acc : option Tree)
           (entry : string * Stored) : option Tree :=
  match acc with
  | None => None
  | Some t =>
      if autoShutdownOf (snd entry) then
        if staleOf os (snd entry) then removeProcessData (fst entry) dir t
        else Some t
      else Some t
  end.

Definition cleanupStaleAutoShutdownProcesses (os : OS) (t : Tree) : option Tree :=
  fold_left (fun acc (part : string * Stored) =>
               fold_left (cleanupStaleStep os (fst part)) (entriesOf (snd part)) acc)
            t (Some t).

(** The search of [endProcess]: [processData.pid === pid] holds of
    records only. *)
Fixpoint findInObject (p : Z) (entries : list (string * Stored))
  : option (string * ProcessData) :=
  match entries with
  | [] => None
  | (key, SRec data) :: rest =>
      if pid data =? p then Some (key, data) else findInObject p rest
  | (_, SObj _) :: rest => findInObject p rest
  end.

Fixpoint findByPid (p : Z) (t : Tree) : option (string * string * ProcessData) :=
  match t with
  | [] => None
  | (dir, processes) :: rest =>
      match findInObject p (entriesOf processes) with
      | Some (key, data) => Some (dir, key, data)
      | None => findByPid p rest
      end
  end.

(** [endProcess] on the document and the handle table. *)
Definition endProcess (os : OS) (p : Z) (t : Tree) (handles : list Z)
  : option (Tree * list Z * bool) :=
  match findByPid p t with
  | None => Some (t, handles, false)
  | Some (processCwd, processKey, processToKill) =>
      if negb (truthy processKey) || negb (truthy processCwd)
      then Some (t, handles, false)
      else
        let processIsAlive := probe os (pid processToKill) in
        let '(handles1, killSuccess) :=
          if processIsAlive then
            if existsb (Z.eqb (pid processToKill)) handles then
              if handleKill os (pid processToKill)
              then (filter (fun q => negb (q =? pid processToKill)) handles, true)
              else (handles, false)
            else
              if sigterm os (pid processToKill) then (handles, true)
              else (handles, false)
          else (handles, false) in
        match removeProcessData processKey processCwd t with
        | Some t' => Some (t', handles1, killSuccess || negb processIsAlive)
        | None => None
        end
  end.

(** A registry as the document [Conf] keeps for it when its directories
    are plain keys. *)
Definition embedPartition (processes : Partition) : list (string * Stored) :=
  map (fun e : string * ProcessData => (fst e, SRec (snd e))) processes.

Definition embed (c : ConfigSchema) : Tree :=
  map (fun part : string * Partition => (fst part, SObj (embedPartition (snd part)))) c.

End DotPath.

(** ** A sample registry

    Two partitions; the supervisor sits in [/proj] and holds a handle for
    pid 101 only. *)

Module Ex.

Definition logs : string := "/home/u/.process-manager-mcp/logs".

Definition rec (p : Z) (dir : string) (st : ProcessStatus) (auto : bool)
  : ProcessData :=
  mkProcessData p "sleep 60" dir st 1700000000000 auto
                (Some (logs ++ "/process_" ++ show p ++ ".log")) None.

Definition registry : ConfigSchema :=
  [("/proj", [("sleep 60_1", rec 101 "/proj" running true);
              ("sleep 60_2", rec 102 "/proj" stopped true);
              ("sleep 60_3", rec 103 "/proj" running false)]);
   ("/other", [("sleep 60_4", rec 201 "/other" running true);
               ("sleep 60_5", rec 202 "/other" running false)])].

Definition manager : ProcessManager := mkManager registry [101] "/proj" logs.

(** Every probe fails: no tracked process is alive. *)
Definition os_dead : OS := mkOS (fun _ => false) (fun _ => false) (fun _ => false).

(** Every probe succeeds and every termination signal is rejected. *)
Definition os_reject : OS := mkOS (fun _ => true) (fun _ => false) (fun _ => false).

(** Every probe succeeds and every termination signal is accepted. *)
Definition os_alive : OS := mkOS (fun _ => true) (fun _ => true) (fun _ => true).

(** The log of pid 101 holds three lines. *)
Definition threeLines : string := join nl ["L1"; "L2"; "L3"] ++ nl.

Definition tenLines : string :=
  join nl ["L1"; "L2"; "L3"; "L4"; "L5"; "L6"; "L7"; "L8"; "L9"; "L10"] ++ nl.

Definition fs (content : string) : FS :=
  fun f => if (f =? logs ++ "/process_101.log")%string then Contents content
           else Missing.

(** A spawn that yields pid 4242. *)
Definition env : StartEnv :=
  mkStartEnv None "/home/u" 1700000000000 1700000000001 1700000000002 None
             (Spawned (Some 4242)).

(** A spawn that yields no pid. *)
Definition env_no_pid : StartEnv :=
  mkStartEnv None "/home/u" 1700000000000 1700000000001 1700000000002 None
             (Spawned None).



(** A supervisor that sits in the root directory. *)
Definition rootManager : ProcessManager :=
  mkManager [("/a", [("sleep 60_1", rec 301 "/a" running true)])] [] "/" logs.

(** An ephemeral record written by a supervisor that sat in
    [/proj/app.v2], and the document that holds it. *)
Definition dottedRec : ProcessData := rec 401 "/proj/app.v2" running true.

Definition dottedDocument : DotPath.Tree :=
  [("/proj/app",
    DotPath.SObj [("v2", DotPath.SObj [("sleep 60_1", DotPath.SRec dottedRec)])])].

End Ex.

(** * Facts about objects and the registry *)

Unset Implicit Arguments.

Section ObjFacts.
Context {V : Type}.
Implicit Types (o : Obj V) (k : string) (v : V).

Lemma obj_get_set o k v k' :
  obj_get (obj_set k v o) k' = if (k =? k')%string then Some v else obj_get o k'.
Proof.
  induction o as [|[k0 v0] rest IH]; simpl.
  - destruct (k =? k')%string; reflexivity.
  - destruct (k0 =? k)%string eqn:E0; simpl.
    + apply String.eqb_eq in E0; subst k0.
      destruct (k =? k')%string; reflexivity.
    + rewrite IH. destruct (k0 =? k')%string eqn:E1; [|reflexivity].
      apply String.eqb_eq in E1; subst k0.
      rewrite String.eqb_sym in E0. now rewrite E0.
Qed.

Lemma obj_get_del o k k' :
  obj_get (obj_del k o) k' = if (k =? k')%string then None else obj_get o k'.
Proof.
  induction o as [|[k0 v0] rest IH]; simpl.
  - destruct (k =? k')%string; reflexivity.
  - destruct (k0 =? k)%string eqn:E0; simpl.
    + apply String.eqb_eq in E0; subst k0. rewrite IH.
      destruct (k =? k')%string; reflexivity.
    + rewrite IH. destruct (k0 =? k')%string eqn:E1; [|reflexivity].
      apply String.eqb_eq in E1; subst k0.
      rewrite String.eqb_sym in E0. now rewrite E0.
Qed.

Lemma obj_get_In o k v : obj_get o k = Some v -> In (k, v) o.
Proof.
  induction o as [|[k0 v0] rest IH]; simpl; [discriminate|].
  destruct (k0 =? k)%string eqn:E0.
  - apply String.eqb_eq in E0; subst k0. intros [= ->]. now left.
  - intros H. right. now apply IH.
Qed.

Lemma existsb_eqb_In (k : string) (l : list string) :
  existsb (String.eqb k) l = true <-> In k l.
Proof.
  rewrite existsb_exists. split.
  - intros [x [Hin Hx]]. apply String.eqb_eq in Hx. now subst.
  - intros Hin. exists k. split; [assumption|apply String.eqb_refl].
Qed.

Lemma distinct_In_get o k v :
  distinct (keys o) = true -> In (k, v) o -> obj_get o k = Some v.
Proof.
  induction o as [|[k0 v0] rest IH]; simpl; [contradiction|].
  intros Hd Hin. apply andb_prop in Hd as [Hfresh Hd].
  destruct Hin as [Heq|Hin].
  - injection Heq as -> ->. now rewrite String.eqb_refl.
  - destruct (k0 =? k)%string eqn:E0.
    + apply String.eqb_eq in E0; subst k0. exfalso.
      apply negb_true_iff in Hfresh.
      assert (Hk : existsb (String.eqb k) (keys rest) = true).
      { apply existsb_eqb_In. change k with (fst (k, v)). now apply in_map. }
      congruence.
    + now apply IH.
Qed.

Lemma In_obj_set o k v k' v' :
  In (k', v') (obj_set k v o) -> (k', v') = (k, v) \/ In (k', v') o.
Proof.
  induction o as [|[k0 v0] rest IH]; simpl.
  - intros [H|[]]; left; now symmetry.
  - destruct (k0 =? k)%string; simpl.
    + intros [H|H]; [left; now symmetry|right; now right].
    + intros [H|H]; [right; now left|].
      destruct (IH H) as [H'|H']; [now left|right; now right].
Qed.

Lemma In_obj_del o k k' v' : In (k', v') (obj_del k o) -> In (k', v') o.
Proof.
  induction o as [|[k0 v0] rest IH]; simpl; [tauto|].
  destruct (k0 =? k)%string; simpl.
  - intros H. right. now apply IH.
  - intros [H|H]; [now left|right; now apply IH].
Qed.

End ObjFacts.

Lemma conf_get_conf_set c d p d' :
  conf_get (conf_set d p c) d' = if (d =? d')%string then p else conf_get c d'.
Proof.
  unfold conf_get, conf_set. rewrite obj_get_set.
  destruct (d =? d')%string; reflexivity.
Qed.

Lemma lookupRec_conf_set c d p d' k :
  lookupRec (conf_set d p c) d' k
  = if (d =? d')%string then obj_get p k else lookupRec c d' k.
Proof.
  unfold lookupRec. rewrite conf_get_conf_set.
  destruct (d =? d')%string; reflexivity.
Qed.

(** Deleting key [k] of partition [d], as [removeProcessData] does. *)
Lemma lookupRec_remove c d k d' k' :
  lookupRec (conf_set d (obj_del k (conf_get c d)) c) d' k'
  = if ((d =? d') && (k =? k'))%string then None else lookupRec c d' k'.
Proof.
  rewrite lookupRec_conf_set. destruct (d =? d')%string eqn:Ed; simpl; [|reflexivity].
  apply String.eqb_eq in Ed; subst d'. rewrite obj_get_del.
  destruct (k =? k')%string; reflexivity.
Qed.

(** Overwriting key [k] of partition [d]. *)
Lemma lookupRec_store c d k v d' k' :
  lookupRec (conf_set d (obj_set k v (conf_get c d)) c) d' k'
  = if ((d =? d') && (k =? k'))%string then Some v else lookupRec c d' k'.
Proof.
  rewrite lookupRec_conf_set. destruct (d =? d')%string eqn:Ed; simpl; [|reflexivity].
  apply String.eqb_eq in Ed; subst d'. rewrite obj_get_set.
  destruct (k =? k')%string; reflexivity.
Qed.

Lemma lookupRec_In c d k r :
  lookupRec c d k = Some r -> exists p, In (d, p) c /\ In (k, r) p.
Proof.
  unfold lookupRec, conf_get. destruct (obj_get c d) as [p|] eqn:E; simpl; [|discriminate].
  intros H. exists p. split; [now apply obj_get_In|now apply obj_get_In].
Qed.

Lemma store_ok_partition c d p :
  store_ok c = true -> In (d, p) c ->
  conf_get c d = p /\ partition_ok p = true /\ truthy d = true.
Proof.
  unfold store_ok. intros H Hin.
  apply andb_prop in H as [H Hparts]. apply andb_prop in H as [Hd Ht].
  repeat split.
  - unfold conf_get. now rewrite (distinct_In_get c d p Hd Hin).
  - rewrite forallb_forall in Hparts. apply Hparts.
    change p with (snd (d, p)). now apply in_map.
  - rewrite forallb_forall in Ht. apply Ht.
    change d with (fst (d, p)). now apply in_map.
Qed.

Lemma store_ok_lookup c d p k r :
  store_ok c = true -> In (d, p) c -> In (k, r) p ->
  lookupRec c d k = Some r /\ truthy d = true /\ truthy k = true.
Proof.
  intros Hok Hd Hk.
  destruct (store_ok_partition c d p Hok Hd) as [Hget [Hp Ht]].
  unfold partition_ok in Hp. apply andb_prop in Hp as [Hdist Htk].
  repeat split; [| assumption |].
  - unfold lookupRec. rewrite Hget. now apply distinct_In_get.
  - rewrite forallb_forall in Htk. apply Htk.
    change k with (fst (k, r)). now apply in_map.
Qed.

(** * endProcess *)

Lemma findInPartition_Some p processes key data :
  findInPartition p processes = Some (key, data) ->
  In (key, data) processes /\ pid data = p.
Proof.
  induction processes as [|[k0 r0] rest IH]; simpl; [discriminate|].
  destruct (pid r0 =? p) eqn:E.
  - intros [= -> ->]. split; [now left|now apply Z.eqb_eq].
  - intros H. destruct (IH H). split; [now right|assumption].
Qed.

Lemma findInPartition_None p processes :
  findInPartition p processes = None ->
  forall key data, In (key, data) processes -> pid data <> p.
Proof.
  induction processes as [|[k0 r0] rest IH]; simpl; [contradiction|].
  destruct (pid r0 =? p) eqn:E; [discriminate|].
  intros H key data [Heq|Hin].
  - injection Heq as <- <-. now apply Z.eqb_neq.
  - now apply (IH H key).
Qed.

Lemma findByPid_Some p c d k r :
  findByPid p c = Some (d, k, r) ->
  exists processes, In (d, processes) c /\ In (k, r) processes /\ pid r = p.
Proof.
  induction c as [|[d0 p0] rest IH]; simpl; [discriminate|].
  destruct (findInPartition p p0) as [[k1 r1]|] eqn:E.
  - intros [= <- <- <-]. apply findInPartition_Some in E as [Hin Hp].
    exists p0. repeat split; [now left|assumption|assumption].
  - intros H. destruct (IH H) as [ps [H1 H2]]. exists ps. split; [now right|assumption].
Qed.

Lemma findByPid_None p c :
  findByPid p c = None ->
  forall d processes k r, In (d, processes) c -> In (k, r) processes -> pid r <> p.
Proof.
  induction c as [|[d0 p0] rest IH]; simpl; [contradiction|].
  destruct (findInPartition p p0) as [[k1 r1]|] eqn:E; [discriminate|].
  intros H d ps k r [Heq|Hin] Hk.
  - injection Heq as <- <-. now apply (findInPartition_None _ _ E k).
  - now apply (IH H d ps k r).
Qed.

(** A pid is tracked exactly when the search of [endProcess] succeeds. *)
Lemma tracked_findByPid c p :
  store_ok c = true ->
  (tracked c p <-> exists d k r, findByPid p c = Some (d, k, r)).
Proof.
  intros Hok. split.
  - intros (d & k & r & Hl & Hp).
    destruct (findByPid p c) as [[[d0 k0] r0]|] eqn:E; [now exists d0, k0, r0|].
    exfalso. apply lookupRec_In in Hl as (ps & H1 & H2).
    exact (findByPid_None _ _ E d ps k r H1 H2 Hp).
  - intros (d & k & r & E). apply findByPid_Some in E as (ps & H1 & H2 & H3).
    exists d, k, r. split; [|assumption].
    now apply (store_ok_lookup c d ps k r Hok H1 H2).
Qed.

Lemma config_tryKill os p m : config (fst (tryKill os p m)) = config m.
Proof.
  unfold tryKill. destruct (hasHandle m p).
  - destruct (handleKill os p); reflexivity.
  - destruct (sigterm os p); reflexivity.
Qed.

Lemma snd_tryKill os p m : snd (tryKill os p m) = signalAccepted os m p.
Proof.
  unfold tryKill, signalAccepted. destruct (hasHandle m p).
  - destruct (handleKill os p); reflexivity.
  - destruct (sigterm os p); reflexivity.
Qed.

(** What [endProcess] does once its search has found a record. *)
Lemma endProcess_found os p m d k r :
  store_ok (config m) = true ->
  findByPid p (config m) = Some (d, k, r) ->
  config (fst (endProcess os p m))
    = conf_set d (obj_del k (conf_get (config m) d)) (config m)
  /\ snd (endProcess os p m) = signalAccepted os m p || negb (probe os p).
Proof.
  intros Hok E. unfold endProcess. rewrite E.
  apply findByPid_Some in E as (ps & H1 & H2 & H3).
  destruct (store_ok_lookup _ _ _ _ _ Hok H1 H2) as (_ & Td & Tk).
  rewrite Td, Tk. simpl. rewrite H3.
  destruct (probe os p) eqn:Ep.
  - pose proof (config_tryKill os p m) as Hc. pose proof (snd_tryKill os p m) as Hs.
    destruct (tryKill os p m) as [m1 ks]. simpl in *.
    unfold removeProcessData. simpl. rewrite Td, Hc. subst ks.
    split; [reflexivity|]. now rewrite orb_false_r.
  - simpl. unfold removeProcessData. simpl. rewrite Td.
    split; [reflexivity|]. now rewrite orb_true_r.
Qed.

Lemma endProcess_not_found os p m :
  findByPid p (config m) = None -> endProcess os p m = (m, false).
Proof. intros E. unfold endProcess. now rewrite E. Qed.

Lemma pair_neq_eqb (d k d' k' : string) :
  (d', k') <> (d, k) -> ((d =? d') && (k =? k'))%string = false.
Proof.
  intros Hne. destruct (d =? d')%string eqn:Ed; [|reflexivity].
  destruct (k =? k')%string eqn:Ek; [|reflexivity].
  apply String.eqb_eq in Ed, Ek. subst. now elim Hne.
Qed.

(** * Conf on plain keys

    On a registry whose directories are plain keys the document [Conf]
    keeps is the registry itself ([DotPath.embed]); keyed access and the
    walks of the class over that document are [conf_get], [conf_set] and
    the walks defined on the registry. *)

Lemma split_no_sep sep x : contains sep x = false -> split sep x = [x].
Proof.
  induction x as [|c x IH]; simpl; [reflexivity|].
  intros H. apply orb_false_iff in H as [Hc Hx]. rewrite Hc, (IH Hx). reflexivity.
Qed.

Lemma keyPath_plain key : plainKey key = true -> DotPath.keyPath key = Some [key].
Proof.
  unfold plainKey, DotPath.keyPath. intros H.
  apply andb_prop in H as [H Hr]. apply andb_prop in H as [Hu Hd].
  apply negb_true_iff in Hu, Hd, Hr.
  rewrite Hu, (split_no_sep _ _ Hd). simpl. now rewrite Hr.
Qed.

Lemma plainStore_In c d processes :
  plainStore c = true -> In (d, processes) c -> plainKey d = true.
Proof.
  unfold plainStore. rewrite forallb_forall. intros H Hin. apply H.
  change d with (fst (d, processes)). now apply in_map.
Qed.

Lemma obj_get_map {A B : Type} (f : A -> B) (o : Obj A) k :
  obj_get (map (fun e : string * A => (fst e, f (snd e))) o) k
  = option_map f (obj_get o k).
Proof.
  induction o as [|[k0 v0] rest IH]; simpl; [reflexivity|].
  now destruct (k0 =? k)%string.
Qed.

Lemma obj_set_map {A B : Type} (f : A -> B) (o : Obj A) k v :
  obj_set k (f v) (map (fun e : string * A => (fst e, f (snd e))) o)
  = map (fun e : string * A => (fst e, f (snd e))) (obj_set k v o).
Proof.
  induction o as [|[k0 v0] rest IH]; simpl; [reflexivity|].
  destruct (k0 =? k)%string; simpl; [reflexivity|now rewrite IH].
Qed.

Lemma obj_del_map {A B : Type} (f : A -> B) (o : Obj A) k :
  obj_del k (map (fun e : string * A => (fst e, f (snd e))) o)
  = map (fun e : string * A => (fst e, f (snd e))) (obj_del k o).
Proof.
  induction o as [|[k0 v0] rest IH]; simpl; [reflexivity|].
  destruct (k0 =? k)%string; simpl; [assumption|now rewrite IH].
Qed.

(** [Conf.get] on a plain key is [conf_get]. *)
Lemma get_embed c d :
  plainKey d = true ->
  DotPath.get (DotPath.embed c) d = Some (DotPath.embedPartition (conf_get c d)).
Proof.
  intros H. unfold DotPath.get. rewrite (keyPath_plain _ H). simpl.
  unfold DotPath.embed, conf_get.
  rewrite (obj_get_map (fun ps => DotPath.SObj (DotPath.embedPartition ps))).
  now destruct (obj_get c d).
Qed.

(** [Conf.set] on a plain key is [conf_set]. *)
Lemma set_embed c d processes :
  plainKey d = true ->
  DotPath.set d (DotPath.embedPartition processes) (DotPath.embed c)
  = Some (DotPath.embed (conf_set d processes c)).
Proof.
  intros H. unfold DotPath.set. rewrite (keyPath_plain _ H). simpl.
  unfold DotPath.embed, conf_set.
  now rewrite (obj_set_map (fun ps => DotPath.SObj (DotPath.embedPartition ps))).
Qed.

Lemma storeProcessData_embed k data m :
  plainKey (currentCwd m) = true ->
  DotPath.storeProcessData k data (currentCwd m) (DotPath.embed (config m))
  = Some (DotPath.embed (config (storeProcessData k data None m))).
Proof.
  intros H. unfold DotPath.storeProcessData, storeProcessData. simpl.
  rewrite (get_embed _ _ H). unfold DotPath.embedPartition.
  rewrite (obj_set_map DotPath.SRec). now apply set_embed.
Qed.

Lemma removeProcessData_embed k d c :
  plainKey d = true ->
  DotPath.removeProcessData k d (DotPath.embed c)
  = Some (DotPath.embed (conf_set d (obj_del k (conf_get c d)) c)).
Proof.
  intros H. unfold DotPath.removeProcessData.
  rewrite (get_embed _ _ H). unfold DotPath.embedPartition.
  rewrite (obj_del_map DotPath.SRec). now apply set_embed.
Qed.

Lemma findInObject_embed p processes :
  DotPath.findInObject p (DotPath.embedPartition processes)
  = findInPartition p processes.
Proof.
  induction processes as [|[k r] rest IH]; simpl; [reflexivity|]. now rewrite IH.
Qed.

Lemma findByPid_embed p c : DotPath.findByPid p (DotPath.embed c) = findByPid p c.
Proof.
  induction c as [|[d ps] rest IH]; simpl; [reflexivity|].
  now rewrite findInObject_embed, IH.
Qed.

(** [endProcess] on the document of a plain registry. *)
Lemma endProcess_embed os p m :
  plainStore (config m) = true ->
  DotPath.endProcess os p (DotPath.embed (config m)) (runningProcesses m)
  = Some (DotPath.embed (config (fst (endProcess os p m))),
          runningProcesses (fst (endProcess os p m)),
          snd (endProcess os p m)).
Proof.
  intros Hp. unfold DotPath.endProcess, endProcess. rewrite findByPid_embed.
  destruct (findByPid p (config m)) as [[[d k] r]|] eqn:E; [|reflexivity].
  destruct (negb (truthy k) || negb (truthy d)) eqn:Et; [reflexivity|].
  assert (Hd : plainKey d = true).
  { apply findByPid_Some in E as (ps & H1 & _). exact (plainStore_In _ _ _ Hp H1). }
  assert (Htd : truthy d = true).
  { apply orb_false_iff in Et as [_ Et]. now apply negb_false_iff in Et. }
  unfold tryKill, hasHandle, deleteHandle, removeProcessData.
  rewrite (removeProcessData_embed _ _ _ Hd).
  destruct (probe os (pid r)); simpl.
  - destruct (existsb (Z.eqb (pid r)) (runningProcesses m)).
    + destruct (handleKill os (pid r)); simpl; now rewrite Htd.
    + destruct (sigterm os (pid r)); simpl; now rewrite Htd.
  - now rewrite Htd.
Qed.

Lemma cleanupStale_inner_embed os dir processes :
  plainKey dir = true ->
  forall c,
    fold_left (DotPath.cleanupStaleStep os dir) (DotPath.embedPartition processes)
              (Some (DotPath.embed c))
    = Some (DotPath.embed (fold_left (cleanupStaleStep os dir) processes c)).
Proof.
  intros Hd. induction processes as [|[k r] rest IH]; intros c; simpl; [reflexivity|].
  destruct (autoShutdown r); [|apply IH].
  destruct (isStale os r); [|apply IH].
  rewrite (removeProcessData_embed _ _ _ Hd). apply IH.
Qed.

Lemma cleanupStale_outer_embed os parts :
  forallb plainKey (keys parts) = true ->
  forall c,
    fold_left (fun acc (part : string * DotPath.Stored) =>
                 fold_left (DotPath.cleanupStaleStep os (fst part))
                           (DotPath.entriesOf (snd part)) acc)
              (DotPath.embed parts) (Some (DotPath.embed c))
    = Some (DotPath.embed
              (fold_left (fun c' (part : string * Partition) =>
                            fold_left (cleanupStaleStep os (fst part)) (snd part) c')
                         parts c)).
Proof.
  induction parts as [|[d ps] rest IH]; intros Hp c; simpl; [reflexivity|].
  simpl in Hp. apply andb_prop in Hp as [Hd Hp].
  rewrite (cleanupStale_inner_embed os d ps Hd). now apply IH.
Qed.

(** The start-up reconciliation on the document of a plain registry. *)
Lemma cleanupStale_embed os m :
  plainStore (config m) = true ->
  DotPath.cleanupStaleAutoShutdownProcesses os (DotPath.embed (config m))
  = Some (DotPath.embed (config (cleanupStaleAutoShutdownProcesses os m))).
Proof.
  intros Hp. unfold DotPath.cleanupStaleAutoShutdownProcesses.
  now rewrite (cleanupStale_outer_embed os (config m) Hp).
Qed.

(** A directory with a dot is no plain key: its partition lies one level
    down in the document, under the piece after the dot, and the walks of
    [endProcess] and of the reconciliation pass it by.  The record of pid
    401, written by a supervisor in [/proj/app.v2], is returned by keyed
    access; [endProcess] answers false for it and deletes nothing, though
    the process is alive and takes the signal. *)
Lemma endProcess_misses_dotted_directory :
  DotPath.storeProcessData "sleep 60_1" Ex.dottedRec "/proj/app.v2" []
  = Some Ex.dottedDocument
  /\ DotPath.get Ex.dottedDocument "/proj/app.v2"
     = Some [("sleep 60_1", DotPath.SRec Ex.dottedRec)]
  /\ pid Ex.dottedRec = 401
  /\ DotPath.endProcess Ex.os_alive 401 Ex.dottedDocument [401]
     = Some (Ex.dottedDocument, [401], false).
Proof. repeat split. Qed.

(** * endProcess: answer and deletion *)

(** C1 (as amended): on a registry whose directories are plain keys,
    where [endProcess] on the registry is [endProcess] on the document that
    [Conf] keeps, the answer is false when no record carries the pid; when
    one does, the answer is true exactly when the process was already dead
    or the termination signal was accepted, so a live process whose signal
    is rejected also yields false. *)
Theorem endProcess_result os p m :
  store_ok (config m) = true ->
  plainStore (config m) = true ->
  DotPath.endProcess os p (DotPath.embed (config m)) (runningProcesses m)
  = Some (DotPath.embed (config (fst (endProcess os p m))),
          runningProcesses (fst (endProcess os p m)),
          snd (endProcess os p m))
  /\ (~ tracked (config m) p -> snd (endProcess os p m) = false)
  /\ (tracked (config m) p ->
      snd (endProcess os p m) = signalAccepted os m p || negb (probe os p)).
Proof.
  intros Hok Hp. split; [now apply endProcess_embed|]. split.
  - intros Hn. destruct (findByPid p (config m)) as [[[d k] r]|] eqn:E.
    + exfalso. apply Hn. apply tracked_findByPid; [assumption|]. now exists d, k, r.
    + now rewrite endProcess_not_found.
  - intros Ht. apply tracked_findByPid in Ht as (d & k & r & E); [|assumption].
    now destruct (endProcess_found os p m d k r Hok E).
Qed.


(** * Loops over a snapshot of a partition *)

(** In an object with distinct keys, a test on "the entry with key [k]"
    is a test on what [k] looks up. *)
Lemma existsb_key {V : Type} (f : V -> bool) (o : Obj V) (k : string) :
  distinct (keys o) = true ->
  existsb (fun e => (fst e =? k)%string && f (snd e)) o
  = match obj_get o k with Some v => f v | None => false end.
Proof.
  induction o as [|[k0 v0] rest IH]; simpl; [reflexivity|].
  intros Hd. apply andb_prop in Hd as [Hfresh Hd]. specialize (IH Hd).
  destruct (k0 =? k)%string eqn:E0; simpl; [|assumption].
  apply String.eqb_eq in E0; subst k0.
  destruct (obj_get rest k) as [v|] eqn:Eg.
  - exfalso. apply obj_get_In in Eg. apply negb_true_iff in Hfresh.
    assert (Hk : existsb (String.eqb k) (keys rest) = true).
    { apply existsb_eqb_In. change k with (fst (k, v)). now apply in_map. }
    congruence.
  - rewrite IH. apply orb_false_r.
Qed.

Lemma partition_ok_conf_get c d :
  store_ok c = true -> distinct (keys (conf_get c d)) = true.
Proof.
  intros Hok. unfold conf_get. destruct (obj_get c d) as [p|] eqn:E; [|reflexivity].
  apply obj_get_In in E. destruct (store_ok_partition c d p Hok E) as (_ & Hp & _).
  unfold partition_ok in Hp. now apply andb_prop in Hp as [Hp _].
Qed.

Lemma store_ok_distinct c : store_ok c = true -> distinct (keys c) = true.
Proof.
  unfold store_ok. intros H. apply andb_prop in H as [H _].
  now apply andb_prop in H as [H _].
Qed.

(** * cleanup *)

Lemma currentCwd_cleanupStep m e : currentCwd (cleanupStep m e) = currentCwd m.
Proof. destruct e as [k r]. unfold cleanupStep. now destruct (autoShutdown r). Qed.

Lemma lookupRec_cleanupStep m e d k :
  lookupRec (config (cleanupStep m e)) d k
  = if (currentCwd m =? d)%string && ((fst e =? k)%string && autoShutdown (snd e))
    then None else lookupRec (config m) d k.
Proof.
  destruct e as [k0 r0]. unfold cleanupStep. simpl.
  destruct (autoShutdown r0); simpl.
  - rewrite lookupRec_remove. rewrite andb_true_r. reflexivity.
  - rewrite andb_false_r, andb_false_r. reflexivity.
Qed.

Lemma lookupRec_cleanup_fold entries : forall m d k,
  lookupRec (config (fold_left cleanupStep entries m)) d k
  = if (currentCwd m =? d)%string
       && existsb (fun e => (fst e =? k)%string && autoShutdown (snd e)) entries
    then None else lookupRec (config m) d k.
Proof.
  induction entries as [|e rest IH]; intros m d k; simpl.
  - now rewrite andb_false_r.
  - rewrite IH, currentCwd_cleanupStep, lookupRec_cleanupStep.
    destruct (currentCwd m =? d)%string; simpl; [|reflexivity].
    destruct ((fst e =? k)%string && autoShutdown (snd e)); simpl; [|reflexivity].
    now destruct (existsb _ rest).
Qed.

Lemma runningProcesses_cleanup m : runningProcesses (cleanup m) = runningProcesses m.
Proof.
  unfold cleanup. generalize (getCurrentCwdProcesses m) as entries.
  intros entries. revert m.
  induction entries as [|[k r] rest IH]; intros m; simpl; [reflexivity|].
  rewrite IH. unfold cleanupStep. now destruct (autoShutdown r).
Qed.

(** The registry after [cleanup], record by record. *)
Lemma lookupRec_cleanup m d k :
  store_ok (config m) = true ->
  lookupRec (config (cleanup m)) d k
  = match lookupRec (config m) d k with
    | Some r => if (currentCwd m =? d)%string && autoShutdown r then None else Some r
    | None => None
    end.
Proof.
  intros Hok. unfold cleanup, getCurrentCwdProcesses. rewrite lookupRec_cleanup_fold.
  destruct (currentCwd m =? d)%string eqn:Ed; simpl.
  - apply String.eqb_eq in Ed; subst d.
    rewrite existsb_key by (now apply partition_ok_conf_get).
    unfold lookupRec. destruct (obj_get (conf_get (config m) (currentCwd m)) k) as [r|];
      [|reflexivity].
    now destruct (autoShutdown r).
  - now destruct (lookupRec (config m) d k).
Qed.

(** C6: [cleanup] removes every auto-shutdown record of the calling
    partition, whatever its status, and leaves every persistent record, in
    this partition or any other, exactly as it was; the handle table is not
    touched either. *)
Theorem cleanup_removes_autoShutdown_only m :
  store_ok (config m) = true ->
  (forall k r, lookupRec (config m) (currentCwd m) k = Some r ->
               autoShutdown r = true ->
               lookupRec (config (cleanup m)) (currentCwd m) k = None)
  /\ (forall d k r, lookupRec (config m) d k = Some r ->
                    autoShutdown r = false ->
                    lookupRec (config (cleanup m)) d k = Some r)
  /\ runningProcesses (cleanup m) = runningProcesses m.
Proof.
  intros Hok. split; [|split].
  - intros k r Hl Ha. rewrite lookupRec_cleanup by assumption.
    now rewrite Hl, String.eqb_refl, Ha.
  - intros d k r Hl Ha. rewrite lookupRec_cleanup by assumption.
    now rewrite Hl, Ha, andb_false_r.
  - apply runningProcesses_cleanup.
Qed.

(** * cleanupStaleAutoShutdownProcesses *)

Lemma lookupRec_cleanupStaleStep os dir c e d k :
  lookupRec (cleanupStaleStep os dir c e) d k
  = if (dir =? d)%string && ((fst e =? k)%string && staleAuto os (snd e))
    then None else lookupRec c d k.
Proof.
  destruct e as [k0 r0]. unfold cleanupStaleStep, staleAuto. simpl.
  destruct (autoShutdown r0); simpl.
  - destruct (isStale os r0); simpl.
    + rewrite lookupRec_remove. now rewrite andb_true_r.
    + now rewrite !andb_false_r.
  - now rewrite !andb_false_r.
Qed.

Lemma lookupRec_cleanupStale_inner os dir entries : forall c d k,
  lookupRec (fold_left (cleanupStaleStep os dir) entries c) d k
  = if (dir =? d)%string
       && existsb (fun e => (fst e =? k)%string && staleAuto os (snd e)) entries
    then None else lookupRec c d k.
Proof.
  induction entries as [|e rest IH]; intros c d k; simpl.
  - now rewrite andb_false_r.
  - rewrite IH, lookupRec_cleanupStaleStep.
    destruct (dir =? d)%string; simpl; [|reflexivity].
    destruct ((fst e =? k)%string && staleAuto os (snd e)); simpl; [|reflexivity].
    now destruct (existsb _ rest).
Qed.

Lemma lookupRec_cleanupStale_outer os parts : forall c d k,
  lookupRec (fold_left (fun c' (part : string * Partition) =>
                          fold_left (cleanupStaleStep os (fst part)) (snd part) c')
                       parts c) d k
  = if existsb (fun part : string * Partition =>
                  (fst part =? d)%string
                  && existsb (fun e => (fst e =? k)%string && staleAuto os (snd e))
                             (snd part)) parts
    then None else lookupRec c d k.
Proof.
  induction parts as [|part rest IH]; intros c d k; simpl; [reflexivity|].
  rewrite IH, lookupRec_cleanupStale_inner.
  destruct ((fst part =? d)%string && existsb _ (snd part)); simpl; [|reflexivity].
  now destruct (existsb _ rest).
Qed.

(** The registry after the start-up reconciliation, record by record. *)
Lemma lookupRec_cleanupStale os m d k :
  store_ok (config m) = true ->
  lookupRec (config (cleanupStaleAutoShutdownProcesses os m)) d k
  = match lookupRec (config m) d k with
    | Some r => if staleAuto os r then None else Some r
    | None => None
    end.
Proof.
  intros Hok. unfold cleanupStaleAutoShutdownProcesses. simpl.
  rewrite lookupRec_cleanupStale_outer.
  rewrite (existsb_key
             (fun p : Partition =>
                existsb (fun e => (fst e =? k)%string && staleAuto os (snd e)) p)
             (config m) d (store_ok_distinct _ Hok)).
  unfold lookupRec, conf_get.
  destruct (obj_get (config m) d) as [p|] eqn:E; [|reflexivity].
  apply obj_get_In in E. destruct (store_ok_partition _ _ _ Hok E) as (_ & Hp & _).
  unfold partition_ok in Hp. apply andb_prop in Hp as [Hp _].
  rewrite existsb_key by assumption.
  destruct (obj_get p k) as [r|]; [|reflexivity].
  now destruct (staleAuto os r).
Qed.

(** The constructor runs the reconciliation on the persisted document,
    with an empty handle table. *)
Lemma construct_reconciles os persisted dirArg envCwd pcwd home :
  config (construct os persisted dirArg envCwd pcwd home)
  = config (cleanupStaleAutoShutdownProcesses os
              (mkManager persisted [] (orElse dirArg (orElse envCwd pcwd))
                         (home ++ "/.process-manager-mcp/logs")))
  /\ runningProcesses (construct os persisted dirArg envCwd pcwd home) = [].
Proof. split; reflexivity. Qed.

(** On a registry whose directories are plain keys, where the
    reconciliation on the registry is the reconciliation on the document
    that [Conf] keeps, it deletes, in every partition, each auto-shutdown
    record whose pid fails the probe or whose status is not running, and
    leaves every persistent record as it was. *)
Lemma reconciliation_on_plain_registry os m d k r :
  store_ok (config m) = true ->
  plainStore (config m) = true ->
  lookupRec (config m) d k = Some r ->
  DotPath.cleanupStaleAutoShutdownProcesses os (DotPath.embed (config m))
  = Some (DotPath.embed (config (cleanupStaleAutoShutdownProcesses os m)))
  /\ (autoShutdown r = true ->
      probe os (pid r) = false \/ status r <> running ->
      lookupRec (config (cleanupStaleAutoShutdownProcesses os m)) d k = None)
  /\ (autoShutdown r = false ->
      lookupRec (config (cleanupStaleAutoShutdownProcesses os m)) d k = Some r).
Proof.
  intros Hok Hpl Hl. split; [now apply cleanupStale_embed|].
  rewrite lookupRec_cleanupStale by assumption. rewrite Hl.
  unfold staleAuto, isStale. split.
  - intros Ha Hs. rewrite Ha. simpl.
    destruct Hs as [Hs|Hs].
    + now rewrite Hs.
    + destruct (status r); simpl; try (now elim Hs); now rewrite orb_true_r.
  - intros Ha. now rewrite Ha.
Qed.

(** C5 at a directory with a dot: a supervisor that sat in
    [/proj/app.v2] has left an auto-shutdown record whose process is dead.
    [Conf] keeps the partition under [/proj/app], one level down; the walk
    of the reconciliation finds, under the top-level name [/proj/app], the
    entry [v2], which is no record and has no [autoShutdown], and passes
    on.  The document is unchanged and the stale record is still what
    keyed access returns. *)
Theorem reconciliation_misses_dotted_directory :
  DotPath.storeProcessData "sleep 60_1" Ex.dottedRec "/proj/app.v2" []
  = Some Ex.dottedDocument
  /\ autoShutdown Ex.dottedRec = true
  /\ probe Ex.os_dead (pid Ex.dottedRec) = false
  /\ DotPath.cleanupStaleAutoShutdownProcesses Ex.os_dead Ex.dottedDocument
     = Some Ex.dottedDocument
  /\ DotPath.get Ex.dottedDocument "/proj/app.v2"
     = Some [("sleep 60_1", DotPath.SRec Ex.dottedRec)].
Proof. repeat split. Qed.

(** * checkProcessHealth *)

Lemma currentCwd_deleteHandle p m : currentCwd (deleteHandle p m) = currentCwd m.
Proof. reflexivity. Qed.

Lemma currentCwd_updateProcessData k data m :
  currentCwd (updateProcessData k data None m) = currentCwd m.
Proof.
  unfold updateProcessData. simpl.
  now destruct (obj_get (conf_get (config m) (currentCwd m)) k).
Qed.

Lemma lookupRec_updateProcessData k data m d k' :
  lookupRec (config (updateProcessData k data None m)) d k'
  = if (currentCwd m =? d)%string && (k =? k')%string
    then match lookupRec (config m) d k' with Some _ => Some data | None => None end
    else lookupRec (config m) d k'.
Proof.
  unfold updateProcessData. simpl.
  destruct (obj_get (conf_get (config m) (currentCwd m)) k) as [old|] eqn:E; simpl.
  - rewrite lookupRec_store.
    destruct ((currentCwd m =? d)%string && (k =? k')%string) eqn:Eb; [|reflexivity].
    apply andb_prop in Eb as [E1 E2]. apply String.eqb_eq in E1, E2. subst d k'.
    unfold lookupRec. now rewrite E.
  - destruct ((currentCwd m =? d)%string && (k =? k')%string) eqn:Eb; [|reflexivity].
    apply andb_prop in Eb as [E1 E2]. apply String.eqb_eq in E1, E2. subst d k'.
    unfold lookupRec. now rewrite E.
Qed.

Lemma currentCwd_checkHealthStep os m e :
  currentCwd (checkHealthStep os m e) = currentCwd m.
Proof.
  destruct e as [k r]. unfold checkHealthStep.
  destruct (status_eqb (status r) running); [|reflexivity].
  destruct (probe os (pid r)); [reflexivity|].
  now rewrite currentCwd_deleteHandle, currentCwd_updateProcessData.
Qed.

Lemma lookupRec_checkHealthStep os m e d k :
  lookupRec (config (checkHealthStep os m e)) d k
  = if (currentCwd m =? d)%string && (fst e =? k)%string && foundDead os (snd e)
    then match lookupRec (config m) d k with
         | Some _ => Some (with_status stopped (snd e))
         | None => None
         end
    else lookupRec (config m) d k.
Proof.
  destruct e as [k0 r0]. unfold checkHealthStep, foundDead. simpl.
  destruct (status_eqb (status r0) running); simpl.
  - destruct (probe os (pid r0)); simpl.
    + now rewrite andb_false_r.
    + change (config (deleteHandle (pid r0)
                (updateProcessData k0 (with_status stopped r0) None m)))
        with (config (updateProcessData k0 (with_status stopped r0) None m)).
      rewrite lookupRec_updateProcessData. now rewrite andb_true_r.
  - now rewrite andb_false_r.
Qed.

Lemma lookupRec_checkHealth_fold os entries : forall m d k,
  distinct (keys entries) = true ->
  lookupRec (config (fold_left (checkHealthStep os) entries m)) d k
  = match (if (currentCwd m =? d)%string then obj_get entries k else None) with
    | Some data =>
        if foundDead os data
        then match lookupRec (config m) d k with
             | Some _ => Some (with_status stopped data)
             | None => None
             end
        else lookupRec (config m) d k
    | None => lookupRec (config m) d k
    end.
Proof.
  induction entries as [|[k0 r0] rest IH]; intros m d k Hd.
  - simpl. now destruct (currentCwd m =? d)%string.
  - simpl in Hd. apply andb_prop in Hd as [Hfresh Hd].
    change (fold_left (checkHealthStep os) ((k0, r0) :: rest) m)
      with (fold_left (checkHealthStep os) rest (checkHealthStep os m (k0, r0))).
    rewrite IH by assumption.
    rewrite currentCwd_checkHealthStep, lookupRec_checkHealthStep. simpl.
    destruct (currentCwd m =? d)%string eqn:Ec; simpl; [|reflexivity].
    destruct (k0 =? k)%string eqn:Ek; simpl; [|reflexivity].
    apply String.eqb_eq in Ek; subst k0.
    destruct (obj_get rest k) as [v|] eqn:Eg; [|reflexivity].
    exfalso. apply obj_get_In in Eg. apply negb_true_iff in Hfresh.
    assert (Hk : existsb (String.eqb k) (keys rest) = true).
    { apply existsb_eqb_In. change k with (fst (k, v)). now apply in_map. }
    congruence.
Qed.

(** The registry after a health check, record by record. *)
Lemma lookupRec_checkProcessHealth os m d k :
  store_ok (config m) = true ->
  lookupRec (config (checkProcessHealth os m)) d k
  = match lookupRec (config m) d k with
    | Some r => if (currentCwd m =? d)%string && foundDead os r
                then Some (with_status stopped r) else Some r
    | None => None
    end.
Proof.
  intros Hok. unfold checkProcessHealth, getCurrentCwdProcesses.
  rewrite lookupRec_checkHealth_fold by (now apply partition_ok_conf_get).
  destruct (currentCwd m =? d)%string eqn:Ed; simpl.
  - apply String.eqb_eq in Ed; subst d. unfold lookupRec.
    destruct (obj_get (conf_get (config m) (currentCwd m)) k) as [r|]; [|reflexivity].
    now destruct (foundDead os r).
  - now destruct (lookupRec (config m) d k).
Qed.

Lemma hasHandle_deleteHandle p m q :
  hasHandle (deleteHandle p m) q = hasHandle m q && negb (p =? q).
Proof.
  unfold hasHandle, deleteHandle. simpl.
  induction (runningProcesses m) as [|x rest IH]; simpl; [reflexivity|].
  destruct (x =? p) eqn:E1; simpl.
  - rewrite IH. apply Z.eqb_eq in E1; subst x.
    destruct (q =? p) eqn:E2; simpl; [|reflexivity].
    apply Z.eqb_eq in E2; subst q. rewrite Z.eqb_refl. simpl. now rewrite andb_false_r.
  - rewrite IH. destruct (q =? x) eqn:E2; simpl; [|reflexivity].
    apply Z.eqb_eq in E2; subst q. rewrite Z.eqb_sym, E1. reflexivity.
Qed.

Lemma runningProcesses_updateProcessData k data m :
  runningProcesses (updateProcessData k data None m) = runningProcesses m.
Proof.
  unfold updateProcessData. simpl.
  now destruct (obj_get (conf_get (config m) (currentCwd m)) k).
Qed.

Lemma hasHandle_checkHealthStep os m e q :
  hasHandle (checkHealthStep os m e) q
  = hasHandle m q && negb (foundDead os (snd e) && (pid (snd e) =? q)).
Proof.
  destruct e as [k r]. unfold checkHealthStep, foundDead. simpl.
  destruct (status_eqb (status r) running); simpl; [|now rewrite andb_true_r].
  destruct (probe os (pid r)); simpl; [now rewrite andb_true_r|].
  rewrite hasHandle_deleteHandle. unfold hasHandle.
  now rewrite runningProcesses_updateProcessData.
Qed.

Lemma hasHandle_checkHealth_fold os entries : forall m q,
  hasHandle (fold_left (checkHealthStep os) entries m) q
  = hasHandle m q
    && negb (existsb (fun e => foundDead os (snd e) && (pid (snd e) =? q)) entries).
Proof.
  induction entries as [|e rest IH]; intros m q; simpl; [now rewrite andb_true_r|].
  rewrite IH, hasHandle_checkHealthStep.
  rewrite negb_orb. now rewrite andb_assoc.
Qed.

(** C4 (as amended): the health check looks only at the partition of the
    supervisor's current directory.  There, a running record whose probe
    fails becomes stopped, with every other field kept, and its handle is
    dropped; all other records, in this partition and in every other, are
    unchanged.  No record is ever given the status crashed. *)
Theorem checkProcessHealth_effect os m d k r :
  store_ok (config m) = true ->
  lookupRec (config m) d k = Some r ->
  (d = currentCwd m -> status r = running -> probe os (pid r) = false ->
   lookupRec (config (checkProcessHealth os m)) d k = Some (with_status stopped r)
   /\ hasHandle (checkProcessHealth os m) (pid r) = false)
  /\ (d <> currentCwd m \/ status r <> running \/ probe os (pid r) = true ->
      lookupRec (config (checkProcessHealth os m)) d k = Some r)
  /\ (forall r', lookupRec (config (checkProcessHealth os m)) d k = Some r' ->
                 status r' = crashed -> status r = crashed).
Proof.
  intros Hok Hl.
  pose proof (lookupRec_checkProcessHealth os m d k Hok) as Hafter. rewrite Hl in Hafter.
  split; [|split].
  - intros Hd Hrun Hdead. subst d. split.
    { rewrite Hafter, String.eqb_refl. unfold foundDead. now rewrite Hrun, Hdead. }
    unfold checkProcessHealth, getCurrentCwdProcesses.
    rewrite hasHandle_checkHealth_fold.
    assert (Hex : existsb (fun e => foundDead os (snd e) && (pid (snd e) =? pid r))
                          (conf_get (config m) (currentCwd m)) = true).
    { apply existsb_exists. exists (k, r). split.
      - now apply obj_get_In.
      - simpl. unfold foundDead. rewrite Hrun, Hdead, Z.eqb_refl. reflexivity. }
    rewrite Hex. apply andb_false_r.
  - intros Hcase. rewrite Hafter.
    destruct ((currentCwd m =? d)%string && foundDead os r) eqn:Eb; [|reflexivity].
    exfalso. apply andb_prop in Eb as [E1 E2]. apply String.eqb_eq in E1.
    unfold foundDead in E2. apply andb_prop in E2 as [E2 E3].
    apply negb_true_iff in E3.
    destruct Hcase as [Hc|[Hc|Hc]].
    + now elim Hc.
    + destruct (status r); simpl in E2; try discriminate. now elim Hc.
    + congruence.
  - intros r' Hr' Hs. rewrite Hafter in Hr'.
    destruct ((currentCwd m =? d)%string && foundDead os r).
    + injection Hr' as <-. simpl in Hs. discriminate.
    + now injection Hr' as <-.
Qed.

(** * Directory scope *)

Section Paths.
Variable sep : ascii.

Lemma string_app_assoc (a b c : string) : ((a ++ b) ++ c = a ++ (b ++ c))%string.
Proof. induction a as [|x a IH]; simpl; [reflexivity|now rewrite IH]. Qed.

Lemma startsWith_iff (s p : string) :
  startsWith s p = true <-> exists r, s = (p ++ r)%string.
Proof.
  unfold startsWith. revert s. induction p as [|c p IH]; intros s; simpl.
  - split; [intros _; now exists s|intros _; now destruct s].
  - destruct s as [|c' s]; simpl.
    + split; [discriminate|intros [r Hr]; discriminate].
    + destruct (ascii_dec c c') as [->|Hne].
      * rewrite IH. split; intros [r Hr]; exists r; [now rewrite Hr|now injection Hr].
      * split; [discriminate|]. intros [r Hr]. injection Hr as Hc _. now elim Hne.
Qed.

Lemma split_nonempty (s : string) : split sep s <> [].
Proof.
  destruct s as [|c s]; simpl; [discriminate|].
  destruct (c =? sep)%char; [discriminate|].
  destruct (split sep s); discriminate.
Qed.

Lemma split_app (a b : string) :
  split sep (a ++ String sep b) = (split sep a ++ split sep b)%list.
Proof.
  induction a as [|c a IH]; simpl.
  - now rewrite Ascii.eqb_refl.
  - destruct (c =? sep)%char eqn:E.
    + now rewrite IH.
    + rewrite IH. pose proof (split_nonempty a) as Hne.
      destruct (split sep a) as [|h t]; [now elim Hne|reflexivity].
Qed.

Lemma join_split (s : string) : join (String sep EmptyString) (split sep s) = s.
Proof.
  induction s as [|c s IH]; simpl; [reflexivity|].
  destruct (c =? sep)%char eqn:E.
  - apply Ascii.eqb_eq in E; subst c.
    pose proof (split_nonempty s) as Hne.
    destruct (split sep s) as [|h t] eqn:Es; [now elim Hne|].
    simpl in *. now rewrite IH.
  - pose proof (split_nonempty s) as Hne.
    destruct (split sep s) as [|h t] eqn:Es; [now elim Hne|].
    destruct t as [|h' t]; simpl in *; now rewrite IH.
Qed.

Lemma join_app (j : string) (l1 l2 : list string) :
  l1 <> [] -> l2 <> [] ->
  join j (l1 ++ l2) = (join j l1 ++ j ++ join j l2)%string.
Proof.
  intros H1 H2. induction l1 as [|x l1 IH]; [now elim H1|].
  destruct l1 as [|y l1].
  - simpl. destruct l2 as [|z l2]; [now elim H2|reflexivity].
  - change (join j ((x :: y :: l1) ++ l2))
      with (x ++ j ++ join j ((y :: l1) ++ l2))%string.
    rewrite IH by discriminate.
    change (join j (x :: y :: l1)) with (x ++ j ++ join j (y :: l1))%string.
    now rewrite !string_app_assoc.
Qed.

Lemma pathComponents_app (a b : string) :
  pathComponents sep (a ++ String sep b)
  = (pathComponents sep a ++ pathComponents sep b)%list.
Proof. unfold pathComponents. now rewrite split_app, filter_app. Qed.

Lemma string_app_cons_neq (t : string) (c : ascii) (r : string) :
  (t ++ String c r)%string <> t.
Proof.
  induction t as [|x t IH]; simpl; [discriminate|].
  intros H. injection H as H. now apply IH.
Qed.

(** The prefix test of the code, as an equation on strings. *)
Lemma startsWith_sep (t d : string) :
  startsWith d (t ++ String sep EmptyString) = true
  <-> exists r, d = (t ++ String sep r)%string.
Proof.
  rewrite startsWith_iff. split; intros [r Hr]; exists r.
  - now rewrite Hr, string_app_assoc.
  - now rewrite Hr, string_app_assoc.
Qed.

(** For normalised paths and a target other than the root, the prefix
    test of the code is descent. *)
Lemma startsWith_descendant (t d : string) :
  normalised sep t -> normalised sep d -> pathComponents sep t <> [] ->
  (startsWith d (t ++ String sep EmptyString) = true <-> descendant sep t d).
Proof.
  intros Ht Hd Hroot. rewrite startsWith_sep. split.
  - intros [r Hr]. exists (pathComponents sep r). split.
    + intros Hnil.
      assert (Hpc : pathComponents sep d = pathComponents sep t).
      { rewrite Hr, pathComponents_app, Hnil. apply app_nil_r. }
      unfold normalised in Hd. rewrite Hpc, <- Ht in Hd.
      rewrite Hd in Hr. exact (string_app_cons_neq _ _ _ (eq_sym Hr)).
    + rewrite Hr. apply pathComponents_app.
  - intros [rest [Hne Hs]]. exists (join (String sep EmptyString) rest).
    unfold normalised in Hd. rewrite Hs in Hd.
    rewrite join_app in Hd by assumption.
    rewrite Hd, <- string_app_assoc. unfold normalised in Ht. now rewrite <- Ht.
Qed.

Lemma shouldInclude_descendant (inc : bool) (t d : string) :
  normalised sep t -> normalised sep d -> pathComponents sep t <> [] ->
  (shouldInclude sep inc t d = true
   <-> d = t \/ (inc = true /\ descendant sep t d)).
Proof.
  intros Ht Hd Hroot. unfold shouldInclude. destruct inc.
  - rewrite orb_true_iff, String.eqb_eq, (startsWith_descendant t d Ht Hd Hroot). tauto.
  - rewrite String.eqb_eq. split; [tauto|]. intros [H|[H _]]; [assumption|discriminate].
Qed.

End Paths.

Lemma keys_obj_set {V : Type} (o : Obj V) k v k' :
  In k' (keys (obj_set k v o)) <-> k' = k \/ In k' (keys o).
Proof.
  induction o as [|[k0 v0] rest IH]; simpl.
  - split; [intros [H|[]]; now left|intros [H|[]]; now left].
  - destruct (k0 =? k)%string eqn:E; simpl.
    + apply String.eqb_eq in E; subst k0. intuition.
    + rewrite IH. intuition.
Qed.

Lemma keys_addPartition dir processes : forall result key,
  In key (keys (addPartition dir processes result))
  <-> In key (keys result)
      \/ exists k r, In (k, r) processes /\ key = compositeKey dir k.
Proof.
  unfold addPartition. induction processes as [|[k0 r0] rest IH]; intros result key; simpl.
  - split; [now left|]. intros [H|(k & r & [] & _)]. assumption.
  - rewrite IH, keys_obj_set. split.
    + intros [[H|H]|(k & r & Hin & Hk)].
      * right. exists k0, r0. split; [now left|assumption].
      * now left.
      * right. exists k, r. split; [now right|assumption].
    + intros [H|(k & r & [Heq|Hin] & Hk)].
      * left. now right.
      * injection Heq as <- <-. left. now left.
      * right. now exists k, r.
Qed.

Lemma keys_scoped_fold (test : string -> bool) parts : forall result key,
  In key (keys (fold_left (fun res (part : string * Partition) =>
                             if test (fst part)
                             then addPartition (fst part) (snd part) res
                             else res) parts result))
  <-> In key (keys result)
      \/ exists d processes k r,
           In (d, processes) parts /\ In (k, r) processes
           /\ test d = true /\ key = compositeKey d k.
Proof.
  induction parts as [|[d0 p0] rest IH]; intros result key; simpl.
  - split; [now left|]. intros [H|(d & ps & k & r & [] & _)]. assumption.
  - rewrite IH. destruct (test d0) eqn:Et.
    + rewrite keys_addPartition. split.
      * intros [[H|(k & r & Hin & Hk)]|(d & ps & k & r & H1 & H2 & H3 & H4)].
        -- now left.
        -- right. exists d0, p0, k, r. repeat split; [now left|assumption..].
        -- right. exists d, ps, k, r. repeat split; [now right|assumption..].
      * intros [H|(d & ps & k & r & [Heq|H1] & H2 & H3 & H4)].
        -- left. now left.
        -- injection Heq as <- <-. left. right. now exists k, r.
        -- right. exists d, ps, k, r. now repeat split.
    + split.
      * intros [H|(d & ps & k & r & H1 & H2 & H3 & H4)]; [now left|].
        right. exists d, ps, k, r. repeat split; [now right|assumption..].
      * intros [H|(d & ps & k & r & [Heq|H1] & H2 & H3 & H4)]; [now left| |].
        -- injection Heq as <- <-. congruence.
        -- right. exists d, ps, k, r. now repeat split.
Qed.

(** The keys of a scoped listing: the composite keys of the partitions
    that pass the test of the loop. *)
Lemma getAllProcessesInDirectory_keys (inc : bool) (m : ProcessManager) (key : string) :
  In key (keys (getAllProcessesInDirectory inc m))
  <-> exists d processes k r,
        In (d, processes) (config m) /\ In (k, r) processes
        /\ shouldInclude path_sep inc (currentCwd m) d = true
        /\ key = compositeKey d k.
Proof.
  unfold getAllProcessesInDirectory.
  rewrite (keys_scoped_fold (shouldInclude path_sep inc (currentCwd m))).
  split.
  - intros [[]|H]. exact H.
  - intros H. now right.
Qed.

(** The examples of the specification: [/a/b] lies below [/a] and is
    taken, [/ab] does not and is not; without sub-directories only the
    target itself is taken. *)
Lemma shouldInclude_examples :
  shouldInclude path_sep true "/a" "/a/b" = true
  /\ descendant path_sep "/a" "/a/b"
  /\ shouldInclude path_sep true "/a" "/ab" = false
  /\ ~ descendant path_sep "/a" "/ab"
  /\ shouldInclude path_sep false "/a" "/a/b" = false.
Proof.
  repeat split; try reflexivity.
  - exists ["b"]. split; [discriminate|reflexivity].
  - intros [rest [_ H]]. vm_compute in H. discriminate H.
Qed.

(** C8 at the root: [/a] is a sub-directory of [/], and the registry
    holds a record under partition [/a], yet the listing of a supervisor
    that sits in [/], sub-directories included, is empty: the prefix the
    code asks for is [//]. *)
Theorem getAllProcessesInDirectory_root_misses_subdirectories :
  descendant path_sep "/" "/a"
  /\ currentCwd Ex.rootManager = "/"
  /\ lookupRec (config Ex.rootManager) "/a" "sleep 60_1"
     = Some (Ex.rec 301 "/a" running true)
  /\ shouldInclude path_sep true "/" "/a" = false
  /\ getAllProcessesInDirectory true Ex.rootManager = [].
Proof.
  repeat split. exists ["a"]. split; [discriminate|reflexivity].
Qed.

(** * getProcessLogs *)

(** For a positive count, [slice(-n)] is the last [n] elements. *)
Lemma slice_neg_lastn {A : Type} (n : Z) (l : list A) :
  0 < n -> slice (- n) l = lastn (Z.to_nat n) l.
Proof.
  intros Hn. unfold slice, lastn.
  assert (Hlt : (- n <? 0) = true) by (apply Z.ltb_lt; lia).
  rewrite Hlt. f_equal. lia.
Qed.

(** For a count of zero, [slice(-0)] is the whole array. *)
Lemma slice_zero_all {A : Type} (l : list A) : slice (- 0) l = l.
Proof.
  unfold slice. simpl.
  replace (Z.to_nat (Z.min 0 (Z.of_nat (List.length l)))) with 0%nat by lia.
  reflexivity.
Qed.

Lemma tailOf_positive (content : string) (n : Z) :
  0 < n -> tailOf content n = lastNonEmptyLines content (Z.to_nat n).
Proof.
  intros Hn. unfold tailOf, lastNonEmptyLines. now rewrite slice_neg_lastn.
Qed.

(** When the search finds a log file that can be read, and the count is
    positive, the answer is the last [tailLength] non-empty lines. *)
Lemma getProcessLogs_positive fs p n m f content :
  findLogFile p (map snd (getAllProcesses m)) = Some f ->
  fs f = Contents content ->
  0 < n ->
  getProcessLogs fs p n m = lastNonEmptyLines content (Z.to_nat n).
Proof.
  intros Hf Hc Hn. unfold getProcessLogs. rewrite Hf, Hc. now apply tailOf_positive.
Qed.

Lemma getProcessLogs_zero fs p m f content :
  findLogFile p (map snd (getAllProcesses m)) = Some f ->
  fs f = Contents content ->
  getProcessLogs fs p 0 m = join nl (filter nonEmpty (split LF content)).
Proof.
  intros Hf Hc. unfold getProcessLogs. rewrite Hf, Hc.
  unfold tailOf. now rewrite slice_zero_all.
Qed.

(** * startProcess *)

Ltac start_cases env autoSd :=
  unfold startProcess, try_catch, bind, modify, ret, throw, openSync, requirePid;
  destruct autoSd; simpl;
  try (destruct (openLog env); simpl);
  try (destruct (spawn env) as [?|[?|]]; simpl);
  try match goal with
      | |- context [?q =? 0] => destruct (q =? 0) eqn:?; simpl
      end.

Lemma startProcess_Ok env command autoSd dir m m' p :
  startProcess env command autoSd dir m = (m', Ok p) ->
  m' = storeProcessData (generateProcessKey command (nowKey env))
                        (startedRecord env command autoSd dir m p) None
                        (setHandle p m)
  /\ p <> 0.
Proof.
  start_cases env autoSd; intros H; try discriminate;
    injection H as <- <-; (split; [reflexivity|now apply Z.eqb_neq]).
Qed.

Lemma startProcess_Throw env command autoSd dir m m' e :
  startProcess env command autoSd dir m = (m', Throw e) -> m' = m.
Proof.
  start_cases env autoSd; intros H; try discriminate; now injection H as <- _.
Qed.

(** The start fails whenever the spawn yields no pid. *)
Lemma startProcess_no_pid env command autoSd dir m :
  (exists msg, spawn env = SpawnThrows msg) \/ spawn env = Spawned None
  \/ spawn env = Spawned (Some 0) ->
  exists e, snd (startProcess env command autoSd dir m) = Throw e.
Proof.
  intros [[msg H]|[H|H]];
    unfold startProcess, try_catch, bind, modify, ret, throw, openSync, requirePid;
    rewrite H; destruct autoSd; simpl; try (destruct (openLog env); simpl);
    eexists; reflexivity.
Qed.

Lemma currentCwd_setHandle p m : currentCwd (setHandle p m) = currentCwd m.
Proof. unfold setHandle. now destruct (hasHandle m p). Qed.

Lemma config_setHandle p m : config (setHandle p m) = config m.
Proof. unfold setHandle. now destruct (hasHandle m p). Qed.

Lemma lookupRec_storeProcessData k data m d k' :
  lookupRec (config (storeProcessData k data None m)) d k'
  = if ((currentCwd m =? d) && (k =? k'))%string then Some data
    else lookupRec (config m) d k'.
Proof. unfold storeProcessData. simpl. apply lookupRec_store. Qed.

(** Where a successful start puts its record. *)
Lemma startProcess_stores env command autoSd dir m m' p :
  startProcess env command autoSd dir m = (m', Ok p) ->
  lookupRec (config m') (currentCwd m) (generateProcessKey command (nowKey env))
  = Some (startedRecord env command autoSd dir m p)
  /\ hasHandle m' p = true.
Proof.
  intros H. apply startProcess_Ok in H as [-> _]. split.
  - rewrite lookupRec_storeProcessData, currentCwd_setHandle.
    now rewrite !String.eqb_refl.
  - unfold storeProcessData, hasHandle. simpl. unfold setHandle, hasHandle.
    destruct (existsb (Z.eqb p) (runningProcesses m)) eqn:E; [assumption|].
    simpl. rewrite existsb_app. simpl. rewrite Z.eqb_refl. now rewrite orb_true_r.
Qed.

(** C10: a start that throws leaves the supervisor as it was: the
    registry holds no new record and the handle table no new handle. *)
Theorem startProcess_failure_changes_nothing env command autoSd dir m e :
  snd (startProcess env command autoSd dir m) = Throw e ->
  config (fst (startProcess env command autoSd dir m)) = config m
  /\ runningProcesses (fst (startProcess env command autoSd dir m))
     = runningProcesses m
  /\ fst (startProcess env command autoSd dir m) = m.
Proof.
  intros H. destruct (startProcess env command autoSd dir m) as [m' res] eqn:E.
  simpl in *. subst res. apply startProcess_Throw in E. now subst m'.
Qed.

(** The log path a successful start stores: the ephemeral branch names
    it after the pid, the persistent branch after the timestamp taken
    before the spawn. *)
Lemma startProcess_logFile env command autoSd dir m m' p :
  startProcess env command autoSd dir m = (m', Ok p) ->
  exists r,
    lookupRec (config m') (currentCwd m) (generateProcessKey command (nowKey env))
    = Some r
    /\ pid r = p
    /\ autoShutdown r = autoSd
    /\ logFile r = Some (if autoSd then getLogFilePath m p
                         else getLogFilePath m (nowTemp env)).
Proof.
  intros H. apply startProcess_stores in H as [H _].
  exists (startedRecord env command autoSd dir m p).
  split; [assumption|]. unfold startedRecord. simpl. now destruct autoSd.
Qed.

(** * Partition keys and the [cwd] field *)









Lemma fold_left_invariant {A B : Type} (P : A -> Prop) (Q : B -> Prop)
      (f : A -> B -> A) (l : list B) :
  (forall a x, P a -> Q x -> P (f a x)) ->
  (forall x, In x l -> Q x) -> forall a, P a -> P (fold_left f l a).
Proof.
  intros Hf. induction l as [|x l IH]; intros HQ a Ha; simpl; [assumption|].
  apply IH.
  - intros y Hy. apply HQ. now right.
  - apply Hf; [assumption|apply HQ; now left].
Qed.












(** * Well-formedness along runs

    The hypothesis [store_ok] of the statements above holds in every state
    a supervisor with a non-empty current directory reaches from an empty
    registry. *)

Lemma distinct_NoDup (l : list string) : distinct l = true <-> NoDup l.
Proof.
  induction l as [|k rest IH]; simpl.
  - split; [constructor|reflexivity].
  - rewrite andb_true_iff, negb_true_iff, IH. split.
    + intros [Hf Hn]. constructor; [|assumption].
      intros Hin. apply existsb_eqb_In in Hin. congruence.
    + intros Hn. inversion Hn as [|x l' Hnin Hn']; subst. split; [|assumption].
      destruct (existsb (String.eqb k) rest) eqn:E; [|reflexivity].
      apply existsb_eqb_In in E. contradiction.
Qed.

Lemma keys_obj_set_shape {V : Type} (o : Obj V) k v :
  keys (obj_set k v o)
  = if existsb (String.eqb k) (keys o) then keys o else (keys o ++ [k])%list.
Proof.
  induction o as [|[k0 v0] rest IH]; simpl; [reflexivity|].
  rewrite (String.eqb_sym k k0).
  destruct (k0 =? k)%string eqn:E; simpl.
  - apply String.eqb_eq in E. now subst k0.
  - rewrite IH. now destruct (existsb (String.eqb k) (keys rest)).
Qed.

Lemma keys_obj_del {V : Type} (o : Obj V) k :
  keys (obj_del k o) = filter (fun x => negb (x =? k)%string) (keys o).
Proof.
  induction o as [|[k0 v0] rest IH]; simpl; [reflexivity|].
  destruct (k0 =? k)%string; simpl; now rewrite IH.
Qed.

Lemma NoDup_keys_obj_set {V : Type} (o : Obj V) k v :
  NoDup (keys o) -> NoDup (keys (obj_set k v o)).
Proof.
  intros Hn. rewrite keys_obj_set_shape.
  destruct (existsb (String.eqb k) (keys o)) eqn:E; [assumption|].
  apply NoDup_app; [assumption|repeat constructor; now intros []|].
  intros x Hx [Heq|[]]. subst x.
  apply existsb_eqb_In in Hx. congruence.
Qed.

Lemma NoDup_keys_obj_del {V : Type} (o : Obj V) k :
  NoDup (keys o) -> NoDup (keys (obj_del k o)).
Proof. intros Hn. rewrite keys_obj_del. now apply NoDup_filter. Qed.

Lemma partition_ok_iff (p : Partition) :
  partition_ok p = true
  <-> NoDup (keys p) /\ forall k r, In (k, r) p -> truthy k = true.
Proof.
  unfold partition_ok. rewrite andb_true_iff, distinct_NoDup, forallb_forall.
  split; intros [Hn Ht]; (split; [assumption|]).
  - intros k r Hin. apply Ht. change k with (fst (k, r)). now apply in_map.
  - intros k Hin. unfold keys in Hin. apply in_map_iff in Hin as [[k' r] [<- Hin]].
    now apply (Ht k' r).
Qed.

Lemma store_ok_iff (c : ConfigSchema) :
  store_ok c = true
  <-> NoDup (keys c)
      /\ forall d p, In (d, p) c -> truthy d = true /\ partition_ok p = true.
Proof.
  unfold store_ok. rewrite !andb_true_iff, distinct_NoDup, !forallb_forall.
  split.
  - intros [[Hn Ht] Hp]. split; [assumption|]. intros d p Hin. split.
    + apply Ht. change d with (fst (d, p)). now apply in_map.
    + apply Hp. change p with (snd (d, p)). now apply in_map.
  - intros [Hn H]. repeat split; [assumption| |].
    + intros d Hin. unfold keys in Hin. apply in_map_iff in Hin as [[d' p] [<- Hin]].
      now apply (H d' p).
    + intros p Hin. apply in_map_iff in Hin as [[d p'] [<- Hin]].
      now apply (H d p').
Qed.

Lemma partition_ok_obj_set (p : Partition) k r :
  partition_ok p = true -> truthy k = true -> partition_ok (obj_set k r p) = true.
Proof.
  rewrite !partition_ok_iff. intros [Hn Ht] Hk. split.
  - now apply NoDup_keys_obj_set.
  - intros k' r' Hin. apply In_obj_set in Hin as [Heq|Hin].
    + now injection Heq as -> _.
    + now apply (Ht k' r').
Qed.

Lemma partition_ok_obj_del (p : Partition) k :
  partition_ok p = true -> partition_ok (obj_del k p) = true.
Proof.
  rewrite !partition_ok_iff. intros [Hn Ht]. split.
  - now apply NoDup_keys_obj_del.
  - intros k' r' Hin. apply In_obj_del in Hin. now apply (Ht k' r').
Qed.

Lemma partition_ok_conf_get_full c d :
  store_ok c = true -> partition_ok (conf_get c d) = true.
Proof.
  intros Hok. unfold conf_get. destruct (obj_get c d) as [p|] eqn:E; [|reflexivity].
  apply obj_get_In in E. now destruct (store_ok_partition c d p Hok E) as (_ & Hp & _).
Qed.

Lemma store_ok_conf_set c d p :
  store_ok c = true -> truthy d = true -> partition_ok p = true ->
  store_ok (conf_set d p c) = true.
Proof.
  rewrite !store_ok_iff. intros [Hn H] Hd Hp. unfold conf_set. split.
  - now apply NoDup_keys_obj_set.
  - intros d' p' Hin. apply In_obj_set in Hin as [Heq|Hin].
    + injection Heq as -> ->. now split.
    + now apply H.
Qed.

Lemma truthy_orElse dir current :
  truthy current = true -> truthy (orElse dir current) = true.
Proof.
  intros H. unfold orElse. destruct dir as [s|]; [|assumption].
  destruct (truthy s) eqn:E; assumption.
Qed.

Lemma truthy_generateProcessKey command now :
  truthy (generateProcessKey command now) = true.
Proof.
  unfold generateProcessKey, truthy. destruct command; reflexivity.
Qed.

Lemma WF_removeProcessData k dir m :
  WF m -> WF (removeProcessData k dir m).
Proof.
  intros [Hok Hc]. split; [|assumption]. unfold removeProcessData. simpl.
  apply store_ok_conf_set; [assumption|now apply truthy_orElse|].
  apply partition_ok_obj_del. now apply partition_ok_conf_get_full.
Qed.

Lemma WF_updateProcessData k data m :
  WF m -> WF (updateProcessData k data None m).
Proof.
  intros [Hok Hc]. unfold updateProcessData. simpl.
  destruct (obj_get (conf_get (config m) (currentCwd m)) k) as [old|] eqn:E;
    [|now split].
  split; [|assumption]. simpl.
  pose proof (partition_ok_conf_get_full (config m) (currentCwd m) Hok) as Hp.
  apply store_ok_conf_set; [assumption|assumption|].
  apply partition_ok_obj_set; [assumption|].
  apply obj_get_In in E. apply partition_ok_iff in Hp as [_ Ht]. now apply (Ht k old).
Qed.

Lemma WF_storeProcessData k data m :
  WF m -> truthy k = true -> WF (storeProcessData k data None m).
Proof.
  intros [Hok Hc] Hk. split; [|assumption]. unfold storeProcessData. simpl.
  apply store_ok_conf_set; [assumption|assumption|].
  apply partition_ok_obj_set; [|assumption]. now apply partition_ok_conf_get_full.
Qed.

Lemma WF_deleteHandle p m : WF m -> WF (deleteHandle p m).
Proof. intros [Hok Hc]. now split. Qed.

Lemma WF_setHandle p m : WF m -> WF (setHandle p m).
Proof. intros [Hok Hc]. unfold setHandle. destruct (hasHandle m p); now split. Qed.

Lemma WF_exec m op : WF m -> WF (exec m op).
Proof.
  intros Hwf.
  destruct op as [env cmd autoSd dir|os p|os| |os|processKey p code signal
                 |processKey message]; simpl.
  - destruct (startProcess env cmd autoSd dir m) as [m' [p|e]] eqn:E; simpl.
    + apply startProcess_Ok in E as [-> _].
      apply WF_storeProcessData; [now apply WF_setHandle|].
      apply truthy_generateProcessKey.
    + apply startProcess_Throw in E. now subst m'.
  - unfold endProcess.
    destruct (findByPid p (config m)) as [[[d k] r]|]; [|assumption].
    destruct (negb (truthy k) || negb (truthy d)); [assumption|].
    assert (Hk : WF (fst (tryKill os (pid r) m))).
    { unfold tryKill. destruct (hasHandle m (pid r)).
      - destruct (handleKill os (pid r)); [now apply WF_deleteHandle|assumption].
      - destruct (sigterm os (pid r)); assumption. }
    destruct (probe os (pid r)).
    + destruct (tryKill os (pid r) m) as [m1 ks]. simpl in *.
      now apply WF_removeProcessData.
    + simpl. now apply WF_removeProcessData.
  - unfold checkProcessHealth.
    apply (fold_left_invariant WF (fun _ => True)); try tauto.
    intros a [k r] Ha _. unfold checkHealthStep.
    destruct (status_eqb (status r) running); [|assumption].
    destruct (probe os (pid r)); [assumption|].
    apply WF_deleteHandle. now apply WF_updateProcessData.
  - unfold cleanup.
    apply (fold_left_invariant WF (fun _ => True)); try tauto.
    intros a [k r] Ha _. unfold cleanupStep.
    destruct (autoShutdown r); [now apply WF_removeProcessData|assumption].
  - destruct Hwf as [Hok Hc]. split; [|assumption]. simpl.
    apply (fold_left_invariant (fun c => store_ok c = true)
                               (fun part : string * Partition =>
                                  truthy (fst part) = true)).
    + intros c part Hc' Hpart.
      apply (fold_left_invariant (fun c => store_ok c = true) (fun _ => True));
        try tauto.
      intros c' [k r] Hc'' _. unfold cleanupStaleStep.
      destruct (autoShutdown r); [|assumption].
      destruct (isStale os r); [|assumption].
      apply store_ok_conf_set; [assumption|assumption|].
      apply partition_ok_obj_del. now apply partition_ok_conf_get_full.
    + intros [d p] Hin. simpl.
      now destruct (store_ok_partition (config m) d p Hok Hin) as (_ & _ & Ht).
    + assumption.
  - unfold onExit.
    pose proof (WF_deleteHandle p m Hwf) as H1.
    destruct (getProcessData processKey (deleteHandle p m)); [|assumption].
    now apply WF_updateProcessData.
  - unfold onReject. destruct (getProcessData processKey m) as [data|]; [|assumption].
    destruct (status_eqb (status data) running); [|assumption].
    now apply WF_updateProcessData.
Qed.

Lemma WF_run ops : forall m, WF m -> WF (run ops m).
Proof.
  unfold run. induction ops as [|op ops IH]; intros m Hwf; simpl; [assumption|].
  apply IH. now apply WF_exec.
Qed.

(** X19: every operation keeps the registry well formed: in any state
    a supervisor with a non-empty current directory reaches from an empty
    registry, partition keys and process keys are distinct and non-empty. *)
Lemma reachable_store_ok dir logs m :
  truthy dir = true -> reachable dir logs m -> store_ok (config m) = true.
Proof.
  intros Hd [ops ->]. apply WF_run. now split.
Qed.

(** * The statements on the sample registry *)

(** C1 as stated does not hold: pid 103 is tracked, its process is
    alive and rejects the signal, and [endProcess] answers false. *)
Lemma endProcess_false_though_tracked :
  lookupRec (config Ex.manager) "/proj" "sleep 60_3"
  = Some (Ex.rec 103 "/proj" running false)
  /\ pid (Ex.rec 103 "/proj" running false) = 103
  /\ snd (endProcess Ex.os_reject 103 Ex.manager) = false.
Proof. repeat split; reflexivity. Qed.

Lemma endProcess_result_witness :
  DotPath.endProcess Ex.os_dead 103 (DotPath.embed (config Ex.manager))
                     (runningProcesses Ex.manager)
  = Some (DotPath.embed (config (fst (endProcess Ex.os_dead 103 Ex.manager))),
          runningProcesses (fst (endProcess Ex.os_dead 103 Ex.manager)),
          snd (endProcess Ex.os_dead 103 Ex.manager))
  /\ (~ tracked (config Ex.manager) 103 ->
      snd (endProcess Ex.os_dead 103 Ex.manager) = false)
  /\ (tracked (config Ex.manager) 103 ->
      snd (endProcess Ex.os_dead 103 Ex.manager)
      = signalAccepted Ex.os_dead Ex.manager 103 || negb (probe Ex.os_dead 103)).
Proof. apply (endProcess_result Ex.os_dead 103 Ex.manager); reflexivity. Defined.





(** C4 as stated does not hold: the record of pid 201 is running and
    its probe fails, but it lies in partition [/other] while the
    supervisor sits in [/proj]; the health check leaves it running. *)
Lemma checkProcessHealth_skips_other_partitions :
  lookupRec (config Ex.manager) "/other" "sleep 60_4"
  = Some (Ex.rec 201 "/other" running true)
  /\ probe Ex.os_dead 201 = false
  /\ lookupRec (config (checkProcessHealth Ex.os_dead Ex.manager)) "/other" "sleep 60_4"
     = Some (Ex.rec 201 "/other" running true)
  /\ status (Ex.rec 201 "/other" running true) = running.
Proof. repeat split; reflexivity. Qed.

Lemma checkProcessHealth_effect_witness :
  ("/proj" = currentCwd Ex.manager ->
   status (Ex.rec 101 "/proj" running true) = running ->
   probe Ex.os_dead (pid (Ex.rec 101 "/proj" running true)) = false ->
   lookupRec (config (checkProcessHealth Ex.os_dead Ex.manager)) "/proj" "sleep 60_1"
   = Some (with_status stopped (Ex.rec 101 "/proj" running true))
   /\ hasHandle (checkProcessHealth Ex.os_dead Ex.manager)
                (pid (Ex.rec 101 "/proj" running true)) = false)
  /\ ("/proj" <> currentCwd Ex.manager
      \/ status (Ex.rec 101 "/proj" running true) <> running
      \/ probe Ex.os_dead (pid (Ex.rec 101 "/proj" running true)) = true ->
      lookupRec (config (checkProcessHealth Ex.os_dead Ex.manager)) "/proj" "sleep 60_1"
      = Some (Ex.rec 101 "/proj" running true))
  /\ (forall r',
        lookupRec (config (checkProcessHealth Ex.os_dead Ex.manager)) "/proj" "sleep 60_1"
        = Some r' ->
        status r' = crashed -> status (Ex.rec 101 "/proj" running true) = crashed).
Proof.
  apply (checkProcessHealth_effect Ex.os_dead Ex.manager "/proj" "sleep 60_1"
           (Ex.rec 101 "/proj" running true)); reflexivity.
Defined.

(** The reconciliation on the sample registry, whose directories are
    plain keys. *)
Lemma reconciliation_on_sample_registry :
  DotPath.cleanupStaleAutoShutdownProcesses Ex.os_dead (DotPath.embed (config Ex.manager))
  = Some (DotPath.embed
            (config (cleanupStaleAutoShutdownProcesses Ex.os_dead Ex.manager)))
  /\ (autoShutdown (Ex.rec 201 "/other" running true) = true ->
      probe Ex.os_dead (pid (Ex.rec 201 "/other" running true)) = false
      \/ status (Ex.rec 201 "/other" running true) <> running ->
      lookupRec (config (cleanupStaleAutoShutdownProcesses Ex.os_dead Ex.manager))
                "/other" "sleep 60_4" = None)
  /\ (autoShutdown (Ex.rec 201 "/other" running true) = false ->
      lookupRec (config (cleanupStaleAutoShutdownProcesses Ex.os_dead Ex.manager))
                "/other" "sleep 60_4"
      = Some (Ex.rec 201 "/other" running true)).
Proof.
  apply (reconciliation_on_plain_registry Ex.os_dead Ex.manager
           "/other" "sleep 60_4" (Ex.rec 201 "/other" running true)); reflexivity.
Defined.

Lemma cleanup_removes_autoShutdown_only_witness :
  (forall k r, lookupRec (config Ex.manager) (currentCwd Ex.manager) k = Some r ->
               autoShutdown r = true ->
               lookupRec (config (cleanup Ex.manager)) (currentCwd Ex.manager) k = None)
  /\ (forall d k r, lookupRec (config Ex.manager) d k = Some r ->
                    autoShutdown r = false ->
                    lookupRec (config (cleanup Ex.manager)) d k = Some r)
  /\ runningProcesses (cleanup Ex.manager) = runningProcesses Ex.manager.
Proof. apply (cleanup_removes_autoShutdown_only Ex.manager). reflexivity. Defined.

(** C7 at a count of zero: the code answers with every line of the
    log, where the last zero lines are no lines at all. *)
Lemma getProcessLogs_zero_returns_every_line :
  getProcessLogs (Ex.fs Ex.threeLines) 101 0 Ex.manager = join nl ["L1"; "L2"; "L3"]
  /\ lastNonEmptyLines Ex.threeLines 0 = "".
Proof. split; reflexivity. Qed.

(** C7 at the count of the specification's example. *)
Lemma getProcessLogs_ten_lines_tail_five :
  getProcessLogs (Ex.fs Ex.tenLines) 101 5 Ex.manager
  = join nl ["L6"; "L7"; "L8"; "L9"; "L10"].
Proof. reflexivity. Qed.

(** C9 at a persistent start: the start obtains pid 4242, and the log
    path it stores is named after the timestamp taken before the spawn,
    not after the pid. *)
Theorem persistent_logFile_is_timestamp_named :
  snd (startProcess Ex.env "sleep 5" false None (fresh "/proj" Ex.logs)) = Ok 4242
  /\ exists r,
       lookupRec (config (fst (startProcess Ex.env "sleep 5" false None
                                 (fresh "/proj" Ex.logs)))) "/proj"
                 "sleep 5_1700000000000" = Some r
       /\ autoShutdown r = false
       /\ logFile r = Some "/home/u/.process-manager-mcp/logs/process_1700000000001.log"
       /\ logFile r <> Some (getLogFilePath (fresh "/proj" Ex.logs) 4242).
Proof.
  split; [reflexivity|]. eexists. split; [reflexivity|].
  repeat split. discriminate.
Qed.

Lemma startProcess_failure_changes_nothing_witness :
  config (fst (startProcess Ex.env_no_pid "sleep 5" true None Ex.manager))
  = config Ex.manager
  /\ runningProcesses (fst (startProcess Ex.env_no_pid "sleep 5" true None Ex.manager))
     = runningProcesses Ex.manager
  /\ fst (startProcess Ex.env_no_pid "sleep 5" true None Ex.manager) = Ex.manager.
Proof.
  apply (startProcess_failure_changes_nothing Ex.env_no_pid "sleep 5" true None Ex.manager
           "Failed to start process: Error: Failed to start process: No PID returned").
  reflexivity.
Defined.

(** * The superseded copy on the sample registry *)

(** The earlier [endProcess] does not see other partitions: pid 202 lies
    in [/other], and the call from [/proj] answers false and deletes
    nothing. *)
Lemma legacy_endProcess_current_partition_only :
  Legacy.endProcess Ex.os_alive 202 Ex.manager = (Ex.manager, false).
Proof. reflexivity. Qed.

(** The earlier [endProcess] keeps the record of a dead process that is
    still marked running, and answers false. *)
Lemma legacy_endProcess_keeps_dead_running_record :
  snd (Legacy.endProcess Ex.os_dead 103 Ex.manager) = false
  /\ lookupRec (config (fst (Legacy.endProcess Ex.os_dead 103 Ex.manager)))
               "/proj" "sleep 60_3"
     = Some (Ex.rec 103 "/proj" running false).
Proof. split; reflexivity. Qed.

(** The earlier [getProcessLogs] counts the empty string after the final
    newline as a line. *)
Lemma legacy_getProcessLogs_counts_trailing_empty_line :
  Legacy.getProcessLogs (Ex.fs Ex.tenLines) 101 5 Ex.manager
  = join nl ["L7"; "L8"; "L9"; "L10"; ""].
Proof. reflexivity. Qed.

(** * Further properties of the class *)

(** ** Exit and rejection callbacks *)

Lemma onExit_unfold k p code signal m :
  onExit k p code signal m
  = match lookupRec (config m) (currentCwd m) k with
    | Some r => updateProcessData k (exitedRecord code signal r) None (deleteHandle p m)
    | None => deleteHandle p m
    end.
Proof.
  unfold onExit, getProcessData, lookupRec. simpl.
  destruct (obj_get (conf_get (config m) (currentCwd m)) k) as [r|]; [|reflexivity].
  unfold exitedRecord, exitMessage. now destruct code as [[| |]|].
Qed.

Lemma status_exitedRecord code signal r :
  status (exitedRecord code signal r) = match code with Some 0 => stopped | _ => crashed end.
Proof. unfold exitedRecord. now destruct code as [[| |]|]. Qed.

(** X1: the exit callback rewrites the record under its process key in
    the current partition, to stopped for exit code 0 and to crashed with
    the exit message otherwise, keeps every other record, and drops the
    handle of the pid; without such a record the registry is left alone. *)
Theorem onExit_effect k p code signal m :
  (forall r, lookupRec (config m) (currentCwd m) k = Some r ->
             lookupRec (config (onExit k p code signal m)) (currentCwd m) k
             = Some (exitedRecord code signal r)
             /\ (code = Some 0 -> status (exitedRecord code signal r) = stopped
                                  /\ errorOutput (exitedRecord code signal r)
                                     = errorOutput r)
             /\ (code <> Some 0 -> status (exitedRecord code signal r) = crashed
                                    /\ errorOutput (exitedRecord code signal r)
                                       = Some (exitMessage code signal)))
  /\ (forall d k', (d, k') <> (currentCwd m, k) ->
                   lookupRec (config (onExit k p code signal m)) d k'
                   = lookupRec (config m) d k')
  /\ (lookupRec (config m) (currentCwd m) k = None ->
      config (onExit k p code signal m) = config m)
  /\ hasHandle (onExit k p code signal m) p = false.
Proof.
  rewrite onExit_unfold. repeat split.
  - rewrite H, lookupRec_updateProcessData. simpl.
    rewrite !String.eqb_refl. simpl. now rewrite H.
  - subst code. reflexivity.
  - subst code. reflexivity.
  - destruct code as [[| |]|]; try reflexivity. now elim H0.
  - destruct code as [[| |]|]; try reflexivity. now elim H0.
  - intros d k' Hne.
    destruct (lookupRec (config m) (currentCwd m) k) as [r|]; [|reflexivity].
    rewrite lookupRec_updateProcessData. simpl.
    now rewrite (pair_neq_eqb (currentCwd m) k d k' Hne).
  - intros Hn. now rewrite Hn.
  - destruct (lookupRec (config m) (currentCwd m) k) as [r|].
    + unfold hasHandle. rewrite runningProcesses_updateProcessData.
      change (hasHandle (deleteHandle p m) p = false).
      rewrite hasHandle_deleteHandle, Z.eqb_refl. apply andb_false_r.
    + rewrite hasHandle_deleteHandle, Z.eqb_refl. apply andb_false_r.
Qed.

(** X2: a rejection that arrives after the exit callback changes nothing:
    the record is no longer running, so the exit status and message stay. *)
Theorem onReject_after_onExit k p code signal message m :
  onReject k message (onExit k p code signal m) = onExit k p code signal m.
Proof.
  unfold onReject, getProcessData.
  change (obj_get (conf_get (config (onExit k p code signal m))
                            (currentCwd (onExit k p code signal m))) k)
    with (lookupRec (config (onExit k p code signal m))
                    (currentCwd (onExit k p code signal m)) k).
  rewrite onExit_unfold.
  destruct (lookupRec (config m) (currentCwd m) k) as [r|] eqn:E.
  - rewrite currentCwd_updateProcessData, lookupRec_updateProcessData. simpl.
    rewrite !String.eqb_refl. simpl. rewrite E.
    rewrite status_exitedRecord. now destruct code as [[| |]|].
  - simpl. now rewrite E.
Qed.

(** ** Repeating the health check and the clean-up *)

Lemma currentCwd_checkProcessHealth os m :
  currentCwd (checkProcessHealth os m) = currentCwd m.
Proof.
  unfold checkProcessHealth. generalize (getCurrentCwdProcesses m) as entries.
  intros entries. revert m. induction entries as [|e rest IH]; intros m; [reflexivity|].
  change (fold_left (checkHealthStep os) (e :: rest) m)
    with (fold_left (checkHealthStep os) rest (checkHealthStep os m e)).
  now rewrite IH, currentCwd_checkHealthStep.
Qed.

Lemma checkHealth_fold_nothing_dead os entries : forall m,
  (forall e, In e entries -> foundDead os (snd e) = false) ->
  fold_left (checkHealthStep os) entries m = m.
Proof.
  induction entries as [|[k r] rest IH]; intros m Hall; [reflexivity|].
  change (fold_left (checkHealthStep os) ((k, r) :: rest) m)
    with (fold_left (checkHealthStep os) rest (checkHealthStep os m (k, r))).
  assert (Hstep : checkHealthStep os m (k, r) = m).
  { specialize (Hall (k, r) (or_introl eq_refl)). unfold foundDead in Hall. simpl in Hall.
    unfold checkHealthStep. destruct (status_eqb (status r) running); [|reflexivity].
    destruct (probe os (pid r)); [reflexivity|discriminate]. }
  rewrite Hstep. apply IH. intros e He. apply Hall. now right.
Qed.

Lemma foundDead_with_status_stopped os r : foundDead os (with_status stopped r) = false.
Proof. reflexivity. Qed.

(** X3: the health check is idempotent: a second pass under the same
    probe answers rewrites no record and drops no handle. *)
Theorem checkProcessHealth_idempotent os m :
  WF m ->
  checkProcessHealth os (checkProcessHealth os m) = checkProcessHealth os m.
Proof.
  intros Hwf.
  pose proof (WF_exec m (OpHealth os) Hwf) as [Hok' _]. simpl in Hok'.
  destruct Hwf as [Hok _].
  unfold checkProcessHealth at 1. apply checkHealth_fold_nothing_dead.
  intros [k r'] Hin. simpl. unfold getCurrentCwdProcesses in Hin.
  assert (Hl : lookupRec (config (checkProcessHealth os m))
                         (currentCwd (checkProcessHealth os m)) k = Some r').
  { unfold lookupRec. apply distinct_In_get; [|assumption].
    now apply partition_ok_conf_get. }
  rewrite currentCwd_checkProcessHealth in Hl.
  rewrite lookupRec_checkProcessHealth in Hl by assumption.
  destruct (lookupRec (config m) (currentCwd m) k) as [r|]; [|discriminate].
  rewrite String.eqb_refl in Hl. simpl in Hl.
  destruct (foundDead os r) eqn:Ed; injection Hl as <-; [reflexivity|assumption].
Qed.

Lemma cleanup_fold_nothing_auto entries : forall m,
  (forall e, In e entries -> autoShutdown (snd e) = false) ->
  fold_left cleanupStep entries m = m.
Proof.
  induction entries as [|[k r] rest IH]; intros m Hall; [reflexivity|].
  change (fold_left cleanupStep ((k, r) :: rest) m)
    with (fold_left cleanupStep rest (cleanupStep m (k, r))).
  assert (Hstep : cleanupStep m (k, r) = m).
  { specialize (Hall (k, r) (or_introl eq_refl)). simpl in Hall.
    unfold cleanupStep. now rewrite Hall. }
  rewrite Hstep. apply IH. intros e He. apply Hall. now right.
Qed.

Lemma currentCwd_cleanup m : currentCwd (cleanup m) = currentCwd m.
Proof.
  unfold cleanup. generalize (getCurrentCwdProcesses m) as entries.
  intros entries. revert m. induction entries as [|e rest IH]; intros m; [reflexivity|].
  change (fold_left cleanupStep (e :: rest) m)
    with (fold_left cleanupStep rest (cleanupStep m e)).
  now rewrite IH, currentCwd_cleanupStep.
Qed.

(** X4: [cleanup] is confined to the partition of the current directory:
    records of every other partition, auto-shutdown or not, stay as they
    are; what remains in the current partition is persistent and was there
    before; and a second [cleanup] changes nothing. *)
Theorem cleanup_scope m :
  WF m ->
  (forall d k, d <> currentCwd m ->
               lookupRec (config (cleanup m)) d k = lookupRec (config m) d k)
  /\ (forall k r, lookupRec (config (cleanup m)) (currentCwd m) k = Some r ->
                  autoShutdown r = false
                  /\ lookupRec (config m) (currentCwd m) k = Some r)
  /\ cleanup (cleanup m) = cleanup m.
Proof.
  intros Hwf.
  pose proof (WF_exec m OpCleanup Hwf) as [Hok' _]. simpl in Hok'.
  destruct Hwf as [Hok _].
  assert (Hrem : forall k r, lookupRec (config (cleanup m)) (currentCwd m) k = Some r ->
                             autoShutdown r = false
                             /\ lookupRec (config m) (currentCwd m) k = Some r).
  { intros k r Hl. rewrite lookupRec_cleanup in Hl by assumption.
    destruct (lookupRec (config m) (currentCwd m) k) as [r0|]; [|discriminate].
    rewrite String.eqb_refl in Hl. simpl in Hl.
    destruct (autoShutdown r0) eqn:Ea; [discriminate|]. injection Hl as <-. now split. }
  split; [|split; [exact Hrem|]].
  - intros d k Hne. rewrite lookupRec_cleanup by assumption.
    destruct (lookupRec (config m) d k) as [r|]; [|reflexivity].
    destruct (currentCwd m =? d)%string eqn:E; [|reflexivity].
    apply String.eqb_eq in E. now elim Hne.
  - unfold cleanup at 1. apply cleanup_fold_nothing_auto.
    intros [k r] Hin. simpl. unfold getCurrentCwdProcesses in Hin.
    assert (Hl : lookupRec (config (cleanup m)) (currentCwd (cleanup m)) k = Some r).
    { unfold lookupRec. apply distinct_In_get; [|assumption].
      now apply partition_ok_conf_get. }
    rewrite currentCwd_cleanup in Hl. now destruct (Hrem k r Hl).
Qed.

(** ** What the start-up reconciliation leaves *)

(** X5: on a registry whose directories are plain keys, where the
    reconciliation on the registry is the reconciliation on the document
    that [Conf] keeps: afterwards every record is one that was there
    before, unchanged, and every auto-shutdown record left is running with
    a live pid; such records are all kept. *)
Theorem reconciliation_leaves_live_records os m :
  store_ok (config m) = true ->
  plainStore (config m) = true ->
  DotPath.cleanupStaleAutoShutdownProcesses os (DotPath.embed (config m))
  = Some (DotPath.embed (config (cleanupStaleAutoShutdownProcesses os m)))
  /\ (forall d k r,
     lookupRec (config (cleanupStaleAutoShutdownProcesses os m)) d k = Some r ->
     lookupRec (config m) d k = Some r
     /\ (autoShutdown r = true -> status r = running /\ probe os (pid r) = true))
  /\ (forall d k r,
        lookupRec (config m) d k = Some r ->
        autoShutdown r = true -> status r = running -> probe os (pid r) = true ->
        lookupRec (config (cleanupStaleAutoShutdownProcesses os m)) d k = Some r).
Proof.
  intros Hok Hpl. split; [now apply cleanupStale_embed|]. split.
  - intros d k r Hl. rewrite lookupRec_cleanupStale in Hl by assumption.
    destruct (lookupRec (config m) d k) as [r0|]; [|discriminate].
    destruct (staleAuto os r0) eqn:Es; [discriminate|]. injection Hl as <-.
    split; [reflexivity|]. intros Ha. unfold staleAuto, isStale in Es.
    rewrite Ha in Es. simpl in Es. apply orb_false_iff in Es as [E1 E2].
    apply negb_false_iff in E1, E2. split; [|assumption].
    now destruct (status r0).
  - intros d k r Hl Ha Hs Hp. rewrite lookupRec_cleanupStale by assumption.
    rewrite Hl. unfold staleAuto, isStale. now rewrite Ha, Hs, Hp.
Qed.

(** ** Names derived from numbers *)

Lemma to_int_not_nil (z : Z) :
  Z.to_int z <> Decimal.Pos Decimal.Nil /\ Z.to_int z <> Decimal.Neg Decimal.Nil.
Proof.
  rewrite <- (DecimalZ.of_to z) at 1 2. rewrite DecimalZ.to_of.
  destruct (Z.to_int z) as [d|d]; simpl; unfold Decimal.unorm.
  - destruct (Decimal.nzhead d); split; discriminate.
  - destruct (Decimal.nzhead d); split; discriminate.
Qed.

Lemma show_inj (a b : Z) : show a = show b -> a = b.
Proof.
  unfold show. intros H. apply DecimalZ.to_int_inj.
  destruct (to_int_not_nil a) as [Ha1 Ha2]. destruct (to_int_not_nil b) as [Hb1 Hb2].
  pose proof (NilZero.isi (Z.to_int a) Ha1 Ha2) as Ia.
  pose proof (NilZero.isi (Z.to_int b) Hb1 Hb2) as Ib.
  rewrite H in Ia. congruence.
Qed.

Lemma string_app_inv_head (s a b : string) : (s ++ a = s ++ b)%string -> a = b.
Proof. induction s as [|c s IH]; simpl; [trivial|]. intros [= H]. now apply IH. Qed.

Lemma string_length_app (a b : string) :
  String.length (a ++ b) = (String.length a + String.length b)%nat.
Proof. induction a as [|c a IH]; simpl; [reflexivity|now rewrite IH]. Qed.

Lemma string_app_inv_tail (s : string) : forall a b : string,
  (a ++ s = b ++ s)%string -> a = b.
Proof.
  induction a as [|x a IH]; intros [|y b] H; simpl in H.
  - reflexivity.
  - exfalso. apply (f_equal String.length) in H. simpl in H.
    rewrite string_length_app in H. lia.
  - exfalso. apply (f_equal String.length) in H. simpl in H.
    rewrite string_length_app in H. lia.
  - injection H as -> H. f_equal. now apply IH.
Qed.

(** X9: names derived from numbers do not collide: under one log
    directory two pids (or timestamps) have the same log file only when
    they are equal, and one command gets the same process key only at the
    same millisecond. *)
Theorem derived_names_injective m command a b :
  (getLogFilePath m a = getLogFilePath m b <-> a = b)
  /\ (generateProcessKey command a = generateProcessKey command b <-> a = b).
Proof.
  split; (split; [|now intros ->]).
  - unfold getLogFilePath. intros H.
    apply string_app_inv_head in H. apply string_app_inv_head in H.
    apply string_app_inv_tail in H. now apply show_inj.
  - unfold generateProcessKey. intros H.
    apply string_app_inv_head in H. apply string_app_inv_head in H.
    now apply show_inj.
Qed.

(** ** Starting *)

Lemma hasHandle_setHandle p m q :
  hasHandle (setHandle p m) q = hasHandle m q || (p =? q).
Proof.
  unfold setHandle. destruct (hasHandle m p) eqn:E.
  - destruct (p =? q) eqn:Ep; [|now rewrite orb_false_r].
    apply Z.eqb_eq in Ep. subst q. now rewrite E.
  - unfold hasHandle at 1. simpl. rewrite existsb_app. simpl.
    rewrite orb_false_r. fold (hasHandle m q). now rewrite (Z.eqb_sym q p).
Qed.

Lemma startProcess_lookup_other env cmd autoSd dir m m' p d k :
  startProcess env cmd autoSd dir m = (m', Ok p) ->
  (d, k) <> (currentCwd m, generateProcessKey cmd (nowKey env)) ->
  lookupRec (config m') d k = lookupRec (config m) d k.
Proof.
  intros H Hne. apply startProcess_Ok in H as [-> _].
  rewrite lookupRec_storeProcessData, currentCwd_setHandle, config_setHandle.
  now rewrite pair_neq_eqb.
Qed.

Lemma startProcess_hasHandle env cmd autoSd dir m m' p q :
  startProcess env cmd autoSd dir m = (m', Ok p) ->
  hasHandle m' q = hasHandle m q || (p =? q).
Proof.
  intros H. apply startProcess_Ok in H as [-> _].
  unfold storeProcessData, hasHandle. simpl.
  fold (hasHandle (setHandle p m) q). apply hasHandle_setHandle.
Qed.

Lemma startProcess_currentCwd env cmd autoSd dir m m' p :
  startProcess env cmd autoSd dir m = (m', Ok p) -> currentCwd m' = currentCwd m.
Proof.
  intros H. apply startProcess_Ok in H as [-> _].
  unfold storeProcessData. simpl. apply currentCwd_setHandle.
Qed.

(** X7: a successful start returns a non-zero pid, registers its handle
    and keeps the handles there were, writes a running record stamped with
    the start time, and leaves every record under another key as it was. *)
Theorem startProcess_frame env cmd autoSd dir m m' p :
  startProcess env cmd autoSd dir m = (m', Ok p) ->
  p <> 0
  /\ (forall q, hasHandle m' q = hasHandle m q || (p =? q))
  /\ (exists r,
        lookupRec (config m') (currentCwd m) (generateProcessKey cmd (nowKey env))
        = Some r
        /\ status r = running /\ startTime r = nowStart env
        /\ command r = cmd /\ errorOutput r = None)
  /\ (forall d k, (d, k) <> (currentCwd m, generateProcessKey cmd (nowKey env)) ->
                  lookupRec (config m') d k = lookupRec (config m) d k)
  /\ currentCwd m' = currentCwd m.
Proof.
  intros H. apply startProcess_Ok in H as [-> Hp]. split; [assumption|].
  split; [|split; [|split]].
  - intros q. unfold storeProcessData, hasHandle. simpl.
    fold (hasHandle (setHandle p m) q). apply hasHandle_setHandle.
  - exists (startedRecord env cmd autoSd dir m p). split; [|now repeat split].
    rewrite lookupRec_storeProcessData, currentCwd_setHandle.
    now rewrite !String.eqb_refl.
  - intros d k Hne. rewrite lookupRec_storeProcessData, currentCwd_setHandle.
    rewrite config_setHandle. now rewrite pair_neq_eqb.
  - unfold storeProcessData. simpl. apply currentCwd_setHandle.
Qed.

Lemma startProcess_Ok_any env cmd autoSd dir m m' p :
  startProcess env cmd autoSd dir m = (m', Ok p) ->
  forall m0,
    startProcess env cmd autoSd dir m0
    = (storeProcessData (generateProcessKey cmd (nowKey env))
                        (startedRecord env cmd autoSd dir m0 p) None (setHandle p m0),
       Ok p).
Proof.
  intros H m0. revert H. start_cases env autoSd; intros H; try discriminate;
    injection H as _ <-; reflexivity.
Qed.

Lemma hasHandle_storeProcessData k data m q :
  hasHandle (storeProcessData k data None m) q = hasHandle m q.
Proof. reflexivity. Qed.

Lemma logDir_setHandle p m : logDir (setHandle p m) = logDir m.
Proof. unfold setHandle. now destruct (hasHandle m p). Qed.

Lemma startedRecord_ext env cmd autoSd dir m0 m p :
  currentCwd m0 = currentCwd m -> logDir m0 = logDir m ->
  startedRecord env cmd autoSd dir m0 p = startedRecord env cmd autoSd dir m p.
Proof.
  intros Hc Hl. unfold startedRecord, getLogFilePath. now rewrite Hc, Hl.
Qed.

(** X8: two successful starts of one command within the same
    millisecond share a process key; the second record replaces the first,
    so the registry ends as if only the second start had happened, while
    the handle table holds both pids. *)
Theorem startProcess_same_key_overwrites env1 env2 cmd a1 a2 dir1 dir2 m m1 m2 p1 p2 :
  startProcess env1 cmd a1 dir1 m = (m1, Ok p1) ->
  startProcess env2 cmd a2 dir2 m1 = (m2, Ok p2) ->
  nowKey env1 = nowKey env2 ->
  (forall d k, lookupRec (config m2) d k
               = lookupRec (config (fst (startProcess env2 cmd a2 dir2 m))) d k)
  /\ hasHandle m2 p1 = true
  /\ hasHandle m2 p2 = true.
Proof.
  intros H1 H2 Hk.
  rewrite (startProcess_Ok_any env2 cmd a2 dir2 m1 m2 p2 H2 m). simpl.
  apply startProcess_Ok in H1 as [-> _]. apply startProcess_Ok in H2 as [-> _].
  set (key := generateProcessKey cmd (nowKey env2)).
  set (r1 := startedRecord env1 cmd a1 dir1 m p1).
  set (s1 := storeProcessData (generateProcessKey cmd (nowKey env1)) r1 None
                              (setHandle p1 m)).
  assert (Hc1 : currentCwd s1 = currentCwd m) by apply currentCwd_setHandle.
  assert (Hl1 : logDir s1 = logDir m) by apply logDir_setHandle.
  rewrite (startedRecord_ext env2 cmd a2 dir2 s1 m p2 Hc1 Hl1).
  split; [|split].
  - intros d k. rewrite !lookupRec_storeProcessData.
    rewrite !currentCwd_setHandle, !config_setHandle, Hc1.
    unfold s1. rewrite lookupRec_storeProcessData.
    rewrite currentCwd_setHandle, config_setHandle, Hk. fold key.
    rewrite lookupRec_store.
    now destruct ((currentCwd m =? d)%string && (key =? k)%string).
  - rewrite hasHandle_storeProcessData, hasHandle_setHandle.
    unfold s1. rewrite hasHandle_storeProcessData, hasHandle_setHandle.
    now rewrite Z.eqb_refl, orb_true_r.
  - rewrite hasHandle_storeProcessData, hasHandle_setHandle.
    now rewrite Z.eqb_refl, orb_true_r.
Qed.

Lemma WF_startProcess env cmd autoSd dir m m' p :
  WF m -> startProcess env cmd autoSd dir m = (m', Ok p) -> WF m'.
Proof.
  intros Hwf H. pose proof (WF_exec m (OpStart env cmd autoSd dir) Hwf) as H'.
  simpl in H'. now rewrite H in H'.
Qed.

Lemma plainStore_conf_set c d processes :
  plainStore c = true -> plainKey d = true ->
  plainStore (conf_set d processes c) = true.
Proof.
  unfold plainStore, conf_set. rewrite !forallb_forall. intros Hc Hd x Hin.
  apply keys_obj_set in Hin as [->|Hin]; [assumption|now apply Hc].
Qed.

Lemma plainStore_startProcess env cmd autoSd dir m m' p :
  plainStore (config m) = true -> plainKey (currentCwd m) = true ->
  startProcess env cmd autoSd dir m = (m', Ok p) ->
  plainStore (config m') = true.
Proof.
  intros Hpl Hc H. apply startProcess_Ok in H as [-> _].
  unfold storeProcessData. simpl. rewrite currentCwd_setHandle, config_setHandle.
  now apply plainStore_conf_set.
Qed.

(** X6: on a registry whose directories are plain keys, under a
    supervisor whose own directory is one, the record a start writes is
    what the walk of [endProcess] over the document finds.  Stopping the
    pid a start has just returned, when no older record carries that pid,
    removes exactly the record the start wrote: every other record is as
    before the start, and if the key was free the whole registry looks up
    as before.  The answer is true unless the process is alive and its
    handle rejects the signal. *)
Theorem start_then_end env cmd autoSd dir os m m1 p :
  WF m ->
  plainStore (config m) = true ->
  plainKey (currentCwd m) = true ->
  ~ tracked (config m) p ->
  startProcess env cmd autoSd dir m = (m1, Ok p) ->
  DotPath.endProcess os p (DotPath.embed (config m1)) (runningProcesses m1)
  = Some (DotPath.embed (config (fst (endProcess os p m1))),
          runningProcesses (fst (endProcess os p m1)),
          snd (endProcess os p m1))
  /\ (forall d k,
     lookupRec (config (fst (endProcess os p m1))) d k
     = if ((currentCwd m =? d) && (generateProcessKey cmd (nowKey env) =? k))%string
       then None else lookupRec (config m) d k)
  /\ (lookupRec (config m) (currentCwd m) (generateProcessKey cmd (nowKey env)) = None ->
      forall d k, lookupRec (config (fst (endProcess os p m1))) d k
                  = lookupRec (config m) d k)
  /\ snd (endProcess os p m1) = handleKill os p || negb (probe os p).
Proof.
  intros Hwf Hpl Hpc Hnt Hs.
  split; [apply endProcess_embed; now apply (plainStore_startProcess _ _ _ _ _ _ _ Hpl Hpc Hs)|].
  pose proof (WF_startProcess _ _ _ _ _ _ _ Hwf Hs) as [Hok1 _].
  assert (Hh : forall q, hasHandle m1 q = hasHandle m q || (p =? q))
    by (intros q; now apply (startProcess_hasHandle env cmd autoSd dir)).
  assert (Hfr : forall d k,
             (d, k) <> (currentCwd m, generateProcessKey cmd (nowKey env)) ->
             lookupRec (config m1) d k = lookupRec (config m) d k)
    by (intros d k; now apply (startProcess_lookup_other env cmd autoSd dir m m1 p)).
  pose proof (startProcess_stores _ _ _ _ _ _ _ Hs) as [Hst _].
  set (key := generateProcessKey cmd (nowKey env)) in *.
  assert (Ht : tracked (config m1) p).
  { exists (currentCwd m), key, (startedRecord env cmd autoSd dir m p).
    split; [assumption|reflexivity]. }
  apply tracked_findByPid in Ht as (d0 & k0 & r0 & E); [|assumption].
  pose proof E as E'. apply findByPid_Some in E' as (ps & H1 & H2 & H3).
  destruct (store_ok_lookup _ _ _ _ _ Hok1 H1 H2) as (Hl0 & _ & _).
  assert (Heq : (d0, k0) = (currentCwd m, key)).
  { destruct (String.eqb_spec d0 (currentCwd m)) as [->|Hd];
      [destruct (String.eqb_spec k0 key) as [->|Hk]; [reflexivity|]|].
    - exfalso. apply Hnt. exists (currentCwd m), k0, r0. split; [|assumption].
      rewrite <- Hfr; [assumption|]. intros [= Hc]. contradiction.
    - exfalso. apply Hnt. exists d0, k0, r0. split; [|assumption].
      rewrite <- Hfr; [assumption|]. intros [= Hc _]. contradiction. }
  injection Heq as -> ->.
  destruct (endProcess_found os p m1 _ _ _ Hok1 E) as [Hc Hsnd].
  assert (Hall : forall d k,
             lookupRec (config (fst (endProcess os p m1))) d k
             = if ((currentCwd m =? d) && (key =? k))%string
               then None else lookupRec (config m) d k).
  { intros d k. rewrite Hc, lookupRec_remove.
    destruct ((currentCwd m =? d)%string && (key =? k)%string) eqn:Eb; [reflexivity|].
    apply Hfr. intros [= -> ->]. now rewrite !String.eqb_refl in Eb. }
  split; [exact Hall|split].
  - intros Hfree d k. rewrite Hall.
    destruct ((currentCwd m =? d)%string && (key =? k)%string) eqn:Eb; [|reflexivity].
    apply andb_prop in Eb as [Ed Ek]. apply String.eqb_eq in Ed, Ek. subst d k.
    now rewrite Hfree.
  - rewrite Hsnd. unfold signalAccepted. rewrite Hh, Z.eqb_refl, orb_true_r. reflexivity.
Qed.

Lemma hasHandle_cleanup m q : hasHandle (cleanup m) q = hasHandle m q.
Proof. unfold hasHandle. now rewrite runningProcesses_cleanup. Qed.

(** X20: what [cleanup] does to a record that was just started: an
    ephemeral one is removed, a persistent one stays as written; in both
    cases the handle of the pid stays in the table. *)
Theorem start_then_cleanup env cmd autoSd dir m m1 p :
  WF m ->
  startProcess env cmd autoSd dir m = (m1, Ok p) ->
  lookupRec (config (cleanup m1)) (currentCwd m) (generateProcessKey cmd (nowKey env))
  = (if autoSd then None else Some (startedRecord env cmd autoSd dir m p))
  /\ hasHandle (cleanup m1) p = true.
Proof.
  intros Hwf Hs.
  pose proof (WF_startProcess _ _ _ _ _ _ _ Hwf Hs) as [Hok1 _].
  pose proof (startProcess_hasHandle env cmd autoSd dir m m1 p p Hs) as Hh.
  pose proof (startProcess_currentCwd env cmd autoSd dir m m1 p Hs) as Hc.
  pose proof (startProcess_stores _ _ _ _ _ _ _ Hs) as [Hst _].
  split.
  - rewrite lookupRec_cleanup by assumption. rewrite Hst, Hc, String.eqb_refl.
    simpl. now destruct autoSd.
  - rewrite hasHandle_cleanup, Hh, Z.eqb_refl. apply orb_true_r.
Qed.

(** ** Unique pids *)

Lemma distinctZ_NoDup (l : list Z) : distinctZ l = true <-> NoDup l.
Proof.
  induction l as [|x rest IH]; simpl.
  - split; [constructor|reflexivity].
  - rewrite andb_true_iff, negb_true_iff, IH. split.
    + intros [Hf Hn]. constructor; [|assumption]. intros Hin.
      assert (existsb (Z.eqb x) rest = true)
        by (apply existsb_exists; exists x; split; [assumption|apply Z.eqb_refl]).
      congruence.
    + intros Hn. inversion Hn as [|y l' Hnin Hn']; subst. split; [|assumption].
      destruct (existsb (Z.eqb x) rest) eqn:E; [|reflexivity].
      apply existsb_exists in E as [y [Hy Hxy]]. apply Z.eqb_eq in Hxy. now subst y.
Qed.

Lemma NoDup_map_In_inj {A B : Type} (f : A -> B) (l : list A) x y :
  NoDup (map f l) -> In x l -> In y l -> f x = f y -> x = y.
Proof.
  induction l as [|a l IH]; simpl; [contradiction|].
  intros Hn Hx Hy Hf. inversion Hn as [|b l' Hnin Hn']; subst.
  destruct Hx as [->|Hx], Hy as [->|Hy].
  - reflexivity.
  - exfalso. apply Hnin. rewrite Hf. now apply in_map.
  - exfalso. apply Hnin. rewrite <- Hf. now apply in_map.
  - now apply IH.
Qed.

Lemma lookupRec_allEntries c d k r :
  lookupRec c d k = Some r -> In (d, k, r) (allEntries c).
Proof.
  intros H. apply lookupRec_In in H as (ps & H1 & H2).
  unfold allEntries. apply in_flat_map. exists (d, ps). split; [assumption|].
  simpl. apply in_map_iff. now exists (k, r).
Qed.

Lemma uniquePids_pidsUnique c : uniquePids c = true -> pidsUnique c.
Proof.
  unfold uniquePids. rewrite distinctZ_NoDup.
  intros Hn d k r d' k' r' H1 H2 Hp.
  apply lookupRec_allEntries in H1, H2.
  pose proof (NoDup_map_In_inj _ _ (d, k, r) (d', k', r') Hn H1 H2 Hp) as Heq.
  now injection Heq as -> -> _.
Qed.

Lemma store_ok_remove c d k :
  store_ok c = true -> truthy d = true ->
  store_ok (conf_set d (obj_del k (conf_get c d)) c) = true.
Proof.
  intros Hok Hd. apply store_ok_conf_set; [assumption|assumption|].
  apply partition_ok_obj_del. now apply partition_ok_conf_get_full.
Qed.

(** After [endProcess], under unique pids, the pid is tracked no more. *)
Lemma endProcess_untracks os p m :
  store_ok (config m) = true -> pidsUnique (config m) ->
  store_ok (config (fst (endProcess os p m))) = true
  /\ ~ tracked (config (fst (endProcess os p m))) p.
Proof.
  intros Hok Hu.
  destruct (findByPid p (config m)) as [[[d0 k0] r0]|] eqn:E.
  - destruct (endProcess_found os p m d0 k0 r0 Hok E) as [Hc _].
    pose proof E as E'. apply findByPid_Some in E' as (ps & H1 & H2 & H3).
    destruct (store_ok_lookup _ _ _ _ _ Hok H1 H2) as (Hl0 & Td & _).
    rewrite Hc. split; [now apply store_ok_remove|].
    intros (d & k & r & Hl & Hp). rewrite lookupRec_remove in Hl.
    destruct ((d0 =? d)%string && (k0 =? k)%string) eqn:Eb; [discriminate|].
    assert (Heq : (d0, k0) = (d, k)) by (apply (Hu d0 k0 r0 d k r); congruence).
    injection Heq as -> ->. now rewrite !String.eqb_refl in Eb.
  - rewrite endProcess_not_found by assumption. simpl. split; [assumption|].
    intros Ht. apply tracked_findByPid in Ht as (d & k & r & E'); [|assumption].
    congruence.
Qed.

Lemma plainStore_endProcess os p m :
  store_ok (config m) = true -> plainStore (config m) = true ->
  plainStore (config (fst (endProcess os p m))) = true.
Proof.
  intros Hok Hpl.
  destruct (findByPid p (config m)) as [[[d k] r]|] eqn:E.
  - destruct (endProcess_found os p m d k r Hok E) as [Hc _]. rewrite Hc.
    apply plainStore_conf_set; [assumption|].
    apply findByPid_Some in E as (ps & H1 & _). exact (plainStore_In _ _ _ Hpl H1).
  - now rewrite endProcess_not_found.
Qed.

(** X10: on a registry whose directories are plain keys, where
    [endProcess] on the registry is [endProcess] on the document that
    [Conf] keeps, and with unique pids: one [endProcess] ends the tracking
    of the pid; a second call, whatever the operating system then answers,
    finds nothing, returns false and changes nothing. *)
Theorem endProcess_twice os os' p m :
  store_ok (config m) = true ->
  plainStore (config m) = true ->
  uniquePids (config m) = true ->
  ~ tracked (config (fst (endProcess os p m))) p
  /\ endProcess os' p (fst (endProcess os p m)) = (fst (endProcess os p m), false)
  /\ DotPath.endProcess os p (DotPath.embed (config m)) (runningProcesses m)
     = Some (DotPath.embed (config (fst (endProcess os p m))),
             runningProcesses (fst (endProcess os p m)),
             snd (endProcess os p m))
  /\ DotPath.endProcess os' p (DotPath.embed (config (fst (endProcess os p m))))
                        (runningProcesses (fst (endProcess os p m)))
     = Some (DotPath.embed (config (fst (endProcess os p m))),
             runningProcesses (fst (endProcess os p m)), false).
Proof.
  intros Hok Hpl Hu. apply uniquePids_pidsUnique in Hu.
  destruct (endProcess_untracks os p m Hok Hu) as [Hok1 Hnt].
  assert (H2 : endProcess os' p (fst (endProcess os p m))
               = (fst (endProcess os p m), false));
    [|split; [assumption|split; [assumption|split; [now apply endProcess_embed|]]];
      rewrite (endProcess_embed os' p _ (plainStore_endProcess os p m Hok Hpl));
      now rewrite H2].
  apply endProcess_not_found.
  destruct (findByPid p (config (fst (endProcess os p m)))) as [[[d k] r]|] eqn:E;
    [|reflexivity].
  exfalso. apply Hnt. apply tracked_findByPid; [assumption|]. now exists d, k, r.
Qed.

(** ** Logs of pids that are not tracked *)

Lemma In_addPartition dir processes : forall result key r,
  In (key, r) (addPartition dir processes result) ->
  In (key, r) result \/ exists k, In (k, r) processes.
Proof.
  unfold addPartition. induction processes as [|[k0 r0] rest IH]; intros result key r.
  - simpl. now left.
  - simpl. intros H. apply IH in H as [H|[k Hk]].
    + apply In_obj_set in H as [Heq|H]; [|now left].
      injection Heq as _ ->. right. exists k0. now left.
    + right. exists k. now right.
Qed.

Lemma In_getAllProcesses_fold parts : forall result key r,
  In (key, r) (fold_left (fun res (part : string * Partition) =>
                            addPartition (fst part) (snd part) res) parts result) ->
  In (key, r) result
  \/ exists d processes k, In (d, processes) parts /\ In (k, r) processes.
Proof.
  induction parts as [|[d0 p0] rest IH]; intros result key r; simpl.
  - now left.
  - intros H. apply IH in H as [H|(d & ps & k & H1 & H2)].
    + apply In_addPartition in H as [H|[k Hk]]; [now left|].
      right. exists d0, p0, k. split; [now left|assumption].
    + right. exists d, ps, k. split; [now right|assumption].
Qed.

Lemma findLogFile_Some p values f :
  findLogFile p values = Some f -> exists r, In r values /\ pid r = p.
Proof.
  induction values as [|r rest IH]; simpl; [discriminate|].
  destruct (logFile r) as [g|].
  - destruct ((pid r =? p) && truthy g) eqn:E.
    + intros _. exists r. apply andb_prop in E as [E _]. apply Z.eqb_eq in E.
      split; [now left|assumption].
    + intros H. destruct (IH H) as [r' [Hin Hp]]. exists r'. split; [now right|assumption].
  - intros H. destruct (IH H) as [r' [Hin Hp]]. exists r'. split; [now right|assumption].
Qed.

Lemma getProcessLogs_untracked fs p n m :
  store_ok (config m) = true -> ~ tracked (config m) p ->
  getProcessLogs fs p n m = "No logs available for this process".
Proof.
  intros Hok Hnt. unfold getProcessLogs.
  destruct (findLogFile p (map snd (getAllProcesses m))) as [f|] eqn:E; [|reflexivity].
  exfalso. apply findLogFile_Some in E as [r [Hin Hp]].
  apply in_map_iff in Hin as [[key r'] [Hr Hin]]. simpl in Hr. subst r'.
  unfold getAllProcesses in Hin.
  apply In_getAllProcesses_fold in Hin as [[]|(d & ps & k & H1 & H2)].
  apply Hnt. exists d, k, r. split; [|assumption].
  now apply (store_ok_lookup (config m) d ps k r Hok H1 H2).
Qed.

(** X11: for a pid that no record carries, [getProcessLogs] answers with
    the fixed text, whatever files exist and whatever count is asked. *)
Theorem getProcessLogs_unknown_pid fs p n m :
  store_ok (config m) = true ->
  ~ tracked (config m) p ->
  getProcessLogs fs p n m = "No logs available for this process".
Proof. intros Hok Hnt. now apply getProcessLogs_untracked. Qed.

(** X12: once a pid has been stopped, its log can no longer be fetched
    by pid, even though the log file is still there: with unique pids the
    answer after [endProcess] is the fixed text. *)
Theorem getProcessLogs_after_endProcess fs os p n m :
  store_ok (config m) = true ->
  uniquePids (config m) = true ->
  getProcessLogs fs p n (fst (endProcess os p m))
  = "No logs available for this process".
Proof.
  intros Hok Hu. apply uniquePids_pidsUnique in Hu.
  destruct (endProcess_untracks os p m Hok Hu) as [Hok1 Hnt].
  now apply getProcessLogs_untracked.
Qed.

(** ** Lines of the log text *)

Lemma contains_split sep s : forall x, In x (split sep s) -> contains sep x = false.
Proof.
  induction s as [|c s IH]; simpl.
  - intros x [<-|[]]. reflexivity.
  - destruct (c =? sep)%char eqn:E.
    + intros x [<-|Hin]; [reflexivity|now apply IH].
    + pose proof (split_nonempty sep s) as Hne.
      destruct (split sep s) as [|h t]; [now elim Hne|].
      intros x [<-|Hin].
      * simpl. rewrite E. simpl. apply IH. now left.
      * apply IH. now right.
Qed.

(** Splitting a joined list of separator-free strings gives the list back. *)
Lemma split_join sep (l : list string) :
  l <> [] -> (forall x, In x l -> contains sep x = false) ->
  split sep (join (String sep EmptyString) l) = l.
Proof.
  induction l as [|x l IH]; intros Hne Hall; [now elim Hne|].
  destruct l as [|y l].
  - simpl. apply split_no_sep. apply Hall. now left.
  - change (join (String sep EmptyString) (x :: y :: l))
      with (x ++ String sep (join (String sep EmptyString) (y :: l)))%string.
    rewrite split_app, IH; [|discriminate|intros z Hz; apply Hall; now right].
    rewrite split_no_sep by (apply Hall; now left). reflexivity.
Qed.

Lemma lastn_incl {A : Type} (n : nat) (l : list A) x : In x (lastn n l) -> In x l.
Proof.
  unfold lastn. intros H. rewrite <- (firstn_skipn (List.length l - n) l).
  apply in_or_app. now right.
Qed.

Lemma lastn_length {A : Type} (n : nat) (l : list A) :
  List.length (lastn n l) = Nat.min n (List.length l).
Proof. unfold lastn. rewrite length_skipn. lia. Qed.

Lemma lastn_all {A : Type} (n : nat) (l : list A) :
  (List.length l <= n)%nat -> lastn n l = l.
Proof.
  intros H. unfold lastn. replace (List.length l - n)%nat with 0%nat by lia. reflexivity.
Qed.

Lemma filter_nonEmpty_In content x :
  In x (filter nonEmpty (split LF content)) -> contains LF x = false /\ x <> ""%string.
Proof.
  intros H. apply filter_In in H as [Hin Hne]. split.
  - now apply (contains_split LF content).
  - intros ->. discriminate.
Qed.

(** X13: for a positive count, the text [getProcessLogs] reads from a log
    file splits back at newlines into exactly the last [n] non-empty lines
    of the file, so it holds no empty line and at most [n] lines; a file
    with no non-empty line gives the empty text, and a count that covers
    all non-empty lines gives them all. *)
Theorem getProcessLogs_lines fs p n m f content :
  findLogFile p (map snd (getAllProcesses m)) = Some f ->
  fs f = Contents content ->
  0 < n ->
  (filter nonEmpty (split LF content) = [] -> getProcessLogs fs p n m = ""%string)
  /\ (filter nonEmpty (split LF content) <> [] ->
      split LF (getProcessLogs fs p n m)
      = lastn (Z.to_nat n) (filter nonEmpty (split LF content))
      /\ (forall x, In x (split LF (getProcessLogs fs p n m)) -> x <> ""%string)
      /\ (List.length (split LF (getProcessLogs fs p n m)) <= Z.to_nat n)%nat)
  /\ ((List.length (filter nonEmpty (split LF content)) <= Z.to_nat n)%nat ->
      getProcessLogs fs p n m = join nl (filter nonEmpty (split LF content))).
Proof.
  intros Hf Hc Hn.
  rewrite (getProcessLogs_positive fs p n m f content Hf Hc Hn).
  unfold lastNonEmptyLines.
  set (lines := filter nonEmpty (split LF content)).
  assert (Hsplit : lines <> [] ->
                   split LF (join nl (lastn (Z.to_nat n) lines))
                   = lastn (Z.to_nat n) lines).
  { intros Hne. apply split_join.
    - intros Hnil. apply (f_equal (@List.length string)) in Hnil.
      rewrite lastn_length in Hnil. simpl in Hnil.
      destruct lines; [now elim Hne|]. simpl in Hnil. lia.
    - intros x Hx. apply lastn_incl in Hx. now apply (filter_nonEmpty_In content). }
  split; [|split].
  - intros Hnil. now rewrite Hnil.
  - intros Hne. rewrite (Hsplit Hne). split; [reflexivity|split].
    + intros x Hx. apply lastn_incl in Hx. now apply (filter_nonEmpty_In content).
    + rewrite lastn_length. lia.
  - intros Hlen. now rewrite lastn_all.
Qed.

(** ** The listing of the current directory *)

Lemma compositeKey_inj dir k k' : compositeKey dir k = compositeKey dir k' -> k = k'.
Proof.
  unfold compositeKey. intros H. apply string_app_inv_head in H.
  now apply string_app_inv_head in H.
Qed.

Lemma obj_get_addPartition dir processes : forall result k,
  distinct (keys processes) = true ->
  obj_get (addPartition dir processes result) (compositeKey dir k)
  = match obj_get processes k with
    | Some r => Some r
    | None => obj_get result (compositeKey dir k)
    end.
Proof.
  unfold addPartition. induction processes as [|[k0 r0] rest IH]; intros result k Hd.
  - reflexivity.
  - simpl in Hd. apply andb_prop in Hd as [Hfresh Hd]. simpl.
    rewrite IH by assumption. rewrite obj_get_set.
    destruct (k0 =? k)%string eqn:Ek.
    + apply String.eqb_eq in Ek. subst k0. rewrite String.eqb_refl.
      destruct (obj_get rest k) as [v|] eqn:Eg; [|reflexivity].
      exfalso. apply obj_get_In in Eg. apply negb_true_iff in Hfresh.
      assert (Hk : existsb (String.eqb k) (keys rest) = true).
      { apply existsb_eqb_In. change k with (fst (k, v)). now apply in_map. }
      congruence.
    + destruct (compositeKey dir k0 =? compositeKey dir k)%string eqn:Ec; [|reflexivity].
      apply String.eqb_eq in Ec. apply compositeKey_inj in Ec.
      apply String.eqb_neq in Ek. contradiction.
Qed.

Lemma scoped_fold_exact current parts : forall result,
  distinct (keys parts) = true ->
  fold_left (fun res (part : string * Partition) =>
               if shouldInclude path_sep false current (fst part)
               then addPartition (fst part) (snd part) res else res) parts result
  = match obj_get parts current with
    | Some processes => addPartition current processes result
    | None => result
    end.
Proof.
  induction parts as [|[d0 p0] rest IH]; intros result Hd; [reflexivity|].
  simpl in Hd. apply andb_prop in Hd as [Hfresh Hd]. simpl.
  rewrite IH by assumption.
  destruct (d0 =? current)%string eqn:E; [|reflexivity].
  apply String.eqb_eq in E. subst d0.
  destruct (obj_get rest current) as [v|] eqn:Eg; [|reflexivity].
  exfalso. apply obj_get_In in Eg. apply negb_true_iff in Hfresh.
  assert (Hk : existsb (String.eqb current) (keys rest) = true).
  { apply existsb_eqb_In. change current with (fst (current, v)). now apply in_map. }
  congruence.
Qed.

(** X14: on a registry whose directories are plain keys, under a
    supervisor whose own directory is one, so that the partition keyed
    access returns is an entry of the walk: without sub-directories the
    scoped listing is the partition of the current directory under
    composite keys: looking up [cwd::processKey] in the listing gives what
    the partition holds under [processKey]; and any scoped listing lists
    only keys that the global listing has too. *)
Theorem getAllProcessesInDirectory_current m :
  store_ok (config m) = true ->
  plainStore (config m) = true ->
  plainKey (currentCwd m) = true ->
  (forall k, obj_get (getAllProcessesInDirectory false m)
                     (compositeKey (currentCwd m) k)
             = lookupRec (config m) (currentCwd m) k)
  /\ (forall inc key, In key (keys (getAllProcessesInDirectory inc m)) ->
                      In key (keys (getAllProcesses m))).
Proof.
  intros Hok _ _. split.
  - intros k. unfold getAllProcessesInDirectory.
    rewrite scoped_fold_exact by (now apply store_ok_distinct).
    unfold lookupRec, conf_get.
    destruct (obj_get (config m) (currentCwd m)) as [ps|] eqn:E; [|reflexivity].
    apply obj_get_In in E. destruct (store_ok_partition _ _ _ Hok E) as (_ & Hp & _).
    unfold partition_ok in Hp. apply andb_prop in Hp as [Hp _].
    rewrite obj_get_addPartition by assumption.
    now destruct (obj_get ps k).
  - intros inc key Hin. unfold getAllProcessesInDirectory in Hin.
    apply (keys_scoped_fold (shouldInclude path_sep inc (currentCwd m))) in Hin
      as [[]|(d & ps & k & r & H1 & H2 & _ & H4)].
    unfold getAllProcesses.
    apply (keys_scoped_fold (fun _ => true) (config m) [] key).
    right. exists d, ps, k, r. now repeat split.
Qed.

(** ** The [stop --all] command of the command line *)

Lemma currentCwd_endProcess os p m : currentCwd (fst (endProcess os p m)) = currentCwd m.
Proof.
  unfold endProcess.
  destruct (findByPid p (config m)) as [[[d k] r]|]; [|reflexivity].
  destruct (negb (truthy k) || negb (truthy d)); [reflexivity|].
  destruct (probe os (pid r)); [|reflexivity].
  unfold tryKill. destruct (hasHandle m (pid r)).
  - destruct (handleKill os (pid r)); reflexivity.
  - destruct (sigterm os (pid r)); reflexivity.
Qed.

Lemma pidsUnique_remove c d k :
  pidsUnique c -> pidsUnique (conf_set d (obj_del k (conf_get c d)) c).
Proof.
  intros Hu d1 k1 r1 d2 k2 r2 H1 H2 Hp. rewrite lookupRec_remove in H1, H2.
  destruct ((d =? d1)%string && (k =? k1)%string); [discriminate|].
  destruct ((d =? d2)%string && (k =? k2)%string); [discriminate|].
  now apply (Hu d1 k1 r1 d2 k2 r2).
Qed.

Lemma findByPid_unique c d k r :
  store_ok c = true -> pidsUnique c -> lookupRec c d k = Some r ->
  findByPid (pid r) c = Some (d, k, r).
Proof.
  intros Hok Hu Hl.
  assert (Ht : tracked c (pid r)) by (now exists d, k, r).
  apply tracked_findByPid in Ht as (d0 & k0 & r0 & E); [|assumption].
  pose proof E as E'. apply findByPid_Some in E' as (ps & H1 & H2 & H3).
  destruct (store_ok_lookup _ _ _ _ _ Hok H1 H2) as (Hl0 & _ & _).
  assert (Heq : (d0, k0) = (d, k)) by (now apply (Hu d0 k0 r0 d k r)).
  injection Heq as -> ->. rewrite E. congruence.
Qed.

Lemma stopAllStep_spec os m n k r :
  store_ok (config m) = true -> pidsUnique (config m) ->
  lookupRec (config m) (currentCwd m) k = Some r ->
  config (fst (stopAllStep os (m, n) (k, r)))
  = conf_set (currentCwd m) (obj_del k (conf_get (config m) (currentCwd m))) (config m)
  /\ currentCwd (fst (stopAllStep os (m, n) (k, r))) = currentCwd m
  /\ totalCount (snd (stopAllStep os (m, n) (k, r))) = S (totalCount n)
  /\ (signalAccepted os m (pid r) || negb (probe os (pid r)) = true ->
      failureCount (snd (stopAllStep os (m, n) (k, r))) = failureCount n).
Proof.
  intros Hok Hu Hl.
  pose proof (findByPid_unique _ _ _ _ Hok Hu Hl) as E.
  destruct (endProcess_found os (pid r) m _ _ _ Hok E) as [Hc Hs].
  pose proof (currentCwd_endProcess os (pid r) m) as Hcw.
  unfold stopAllStep. simpl.
  destruct (endProcess os (pid r) m) as [m' success]. simpl in *. subst success.
  destruct (signalAccepted os m (pid r) || negb (probe os (pid r))) eqn:Es.
  - destruct (negb (probe os (pid r))); simpl; unfold totalCount; simpl;
      repeat split; try assumption; lia.
  - simpl. unfold totalCount. simpl. repeat split; try assumption; try lia;
      try discriminate.
Qed.

Lemma stopAll_fold os entries : forall m n,
  store_ok (config m) = true -> pidsUnique (config m) ->
  distinct (keys entries) = true ->
  (forall k r, In (k, r) entries -> lookupRec (config m) (currentCwd m) k = Some r) ->
  (forall d k,
     lookupRec (config (fst (fold_left (stopAllStep os) entries (m, n)))) d k
     = if (currentCwd m =? d)%string && existsb (String.eqb k) (keys entries)
       then None else lookupRec (config m) d k)
  /\ totalCount (snd (fold_left (stopAllStep os) entries (m, n)))
     = (totalCount n + List.length entries)%nat
  /\ ((forall q, probe os q = false \/ (sigterm os q = true /\ handleKill os q = true)) ->
      failureCount (snd (fold_left (stopAllStep os) entries (m, n))) = failureCount n).
Proof.
  induction entries as [|[k0 r0] rest IH]; intros m n Hok Hu Hd Hin.
  - simpl. split; [|split].
    + intros d k. now rewrite andb_false_r.
    + lia.
    + reflexivity.
  - simpl in Hd. apply andb_prop in Hd as [Hfresh Hd]. apply negb_true_iff in Hfresh.
    assert (Hl0 : lookupRec (config m) (currentCwd m) k0 = Some r0)
      by (apply Hin; now left).
    destruct (stopAllStep_spec os m n k0 r0 Hok Hu Hl0) as (Hc & Hcw & Ht & Hf).
    change (fold_left (stopAllStep os) ((k0, r0) :: rest) (m, n))
      with (fold_left (stopAllStep os) rest (stopAllStep os (m, n) (k0, r0))).
    destruct (stopAllStep os (m, n) (k0, r0)) as [m1 n1]. simpl in Hc, Hcw, Ht, Hf.
    destruct (store_ok_lookup (config m) (currentCwd m)
                (conf_get (config m) (currentCwd m)) k0 r0 Hok) as (_ & Td & _).
    { unfold lookupRec, conf_get in Hl0 |- *.
      destruct (obj_get (config m) (currentCwd m)) as [ps|] eqn:E; [|discriminate].
      now apply obj_get_In. }
    { now apply obj_get_In. }
    assert (Hok1 : store_ok (config m1) = true)
      by (rewrite Hc; now apply store_ok_remove).
    assert (Hu1 : pidsUnique (config m1)) by (rewrite Hc; now apply pidsUnique_remove).
    assert (Hin1 : forall k r, In (k, r) rest ->
                               lookupRec (config m1) (currentCwd m1) k = Some r).
    { intros k r Hkr. rewrite Hcw, Hc, lookupRec_remove, String.eqb_refl. simpl.
      destruct (k0 =? k)%string eqn:Ek.
      - exfalso. apply String.eqb_eq in Ek. subst k.
        assert (existsb (String.eqb k0) (keys rest) = true).
        { apply existsb_eqb_In. change k0 with (fst (k0, r)). now apply in_map. }
        congruence.
      - apply Hin. now right. }
    destruct (IH m1 n1 Hok1 Hu1 Hd Hin1) as (Hlk & Htot & Hfail).
    split; [|split].
    + intros d k. rewrite Hlk, Hcw, Hc, lookupRec_remove. simpl.
      rewrite (String.eqb_sym k k0).
      destruct (currentCwd m =? d)%string; simpl; [|reflexivity].
      destruct (k0 =? k)%string; simpl; [|reflexivity].
      now destruct (existsb (String.eqb k) (keys rest)).
    + rewrite Htot, Ht. simpl. lia.
    + intros Hos. rewrite (Hfail Hos). apply Hf.
      unfold signalAccepted. destruct (Hos (pid r0)) as [Hp|[Hs Hh]].
      * rewrite Hp. apply orb_true_r.
      * rewrite Hs, Hh. now destruct (hasHandle m (pid r0)).
Qed.

Lemma currentCwd_stopAll_fold os entries : forall acc,
  currentCwd (fst (fold_left (stopAllStep os) entries acc)) = currentCwd (fst acc).
Proof.
  induction entries as [|e rest IH]; intros [m n]; [reflexivity|].
  simpl fold_left. rewrite IH. unfold stopAllStep.
  pose proof (currentCwd_endProcess os (pid (snd e)) m) as Hc.
  destruct (endProcess os (pid (snd e)) m) as [m' success]. simpl in Hc.
  destruct success; [destruct (negb (probe os (pid (snd e))))|]; exact Hc.
Qed.

Lemma stopAllCommand_unfold os m :
  stopAllCommand os m
  = (fold_left (stopAllStep os) (getCurrentCwdProcesses m) (m, mkStopCounts 0 0 0),
     if (0 <? failureCount
                (snd (fold_left (stopAllStep os) (getCurrentCwdProcesses m)
                                (m, mkStopCounts 0 0 0))))%nat
     then 1 else 0).
Proof.
  unfold stopAllCommand. destruct (getCurrentCwdProcesses m) as [|e rest]; [reflexivity|].
  now destruct (fold_left (stopAllStep os) (e :: rest) (m, mkStopCounts 0 0 0)).
Qed.

Lemma obj_get_all_None {V : Type} (o : Obj V) :
  (forall k, obj_get o k = None) -> o = [].
Proof.
  destruct o as [|[k v] rest]; [reflexivity|]. intros H. specialize (H k).
  simpl in H. rewrite String.eqb_refl in H. discriminate H.
Qed.

(** X16: on a registry whose directories are plain keys, under a
    supervisor whose own directory is one, and with unique pids:
    [stop --all] empties the partition of the current directory and leaves
    every other partition as it was; it counts each listed entry once,
    exits with 0 exactly when no stop failed, and no stop fails when every
    process is dead or accepts the signal.  The [cleanup] that runs as the
    program exits finds nothing left to remove. *)
Theorem stopAllCommand_outcome os m :
  store_ok (config m) = true ->
  plainStore (config m) = true ->
  plainKey (currentCwd m) = true ->
  uniquePids (config m) = true ->
  (forall k, lookupRec (config (fst (fst (stopAllCommand os m)))) (currentCwd m) k = None)
  /\ (forall d k, d <> currentCwd m ->
                  lookupRec (config (fst (fst (stopAllCommand os m)))) d k
                  = lookupRec (config m) d k)
  /\ totalCount (snd (fst (stopAllCommand os m)))
     = List.length (getCurrentCwdProcesses m)
  /\ (snd (stopAllCommand os m) = 0
      <-> failureCount (snd (fst (stopAllCommand os m))) = 0%nat)
  /\ ((forall q, probe os q = false \/ (sigterm os q = true /\ handleKill os q = true)) ->
      snd (stopAllCommand os m) = 0)
  /\ cleanup (fst (fst (stopAllCommand os m))) = fst (fst (stopAllCommand os m)).
Proof.
  intros Hok _ _ Hu. apply uniquePids_pidsUnique in Hu.
  rewrite stopAllCommand_unfold. simpl.
  destruct (stopAll_fold os (getCurrentCwdProcesses m) m (mkStopCounts 0 0 0) Hok Hu)
    as (Hlk & Htot & Hfail).
  { now apply partition_ok_conf_get. }
  { intros k r Hin. unfold lookupRec. apply distinct_In_get; [|assumption].
    now apply partition_ok_conf_get. }
  assert (Hempty : forall k,
             lookupRec (config (fst (fold_left (stopAllStep os) (getCurrentCwdProcesses m)
                                               (m, mkStopCounts 0 0 0))))
                       (currentCwd m) k = None).
  { intros k. rewrite Hlk, String.eqb_refl. simpl.
    destruct (existsb (String.eqb k) (keys (getCurrentCwdProcesses m))) eqn:E;
      [reflexivity|].
    destruct (lookupRec (config m) (currentCwd m) k) as [r|] eqn:El; [|reflexivity].
    exfalso. unfold lookupRec in El. apply obj_get_In in El.
    assert (existsb (String.eqb k) (keys (getCurrentCwdProcesses m)) = true).
    { apply existsb_eqb_In. change k with (fst (k, r)). now apply in_map. }
    congruence. }
  split; [exact Hempty|split; [|split; [|split; [|split]]]].
  - intros d k Hne. rewrite Hlk.
    destruct (currentCwd m =? d)%string eqn:E; [|reflexivity].
    apply String.eqb_eq in E. now elim Hne.
  - rewrite Htot. reflexivity.
  - destruct (failureCount _) as [|f]; simpl; split; intros H;
      try reflexivity; discriminate.
  - intros Hos. rewrite (Hfail Hos). reflexivity.
  - pose proof (currentCwd_stopAll_fold os (getCurrentCwdProcesses m)
                  (m, mkStopCounts 0 0 0)) as Hc.
    set (m' := fst (fold_left (stopAllStep os) (getCurrentCwdProcesses m)
                              (m, mkStopCounts 0 0 0))) in *.
    simpl in Hc. unfold cleanup, getCurrentCwdProcesses. rewrite Hc.
    now rewrite (obj_get_all_None _ Hempty).
Qed.

(** ** The start tool *)

Lemma startProcess_Throw_msg env cmd autoSd dir m m' msg :
  startProcess env cmd autoSd dir m = (m', Throw msg) ->
  exists e, msg = ("Failed to start process: " ++ e)%string.
Proof.
  start_cases env autoSd; intros H; try discriminate;
    injection H as _ <-; eexists; reflexivity.
Qed.

(** X17: the [start_process] tool reports success, naming the pid,
    exactly when [startProcess] returned one, and otherwise relays the
    error of [startProcess]; its own "no PID was returned" error is never
    produced, because a returned pid is never zero. *)
Theorem startProcessTool_outcome env cmd auto_shutdown dir m :
  fst (startProcessTool env cmd auto_shutdown dir m)
  = fst (startProcess env cmd auto_shutdown dir m)
  /\ match snd (startProcess env cmd auto_shutdown dir m) with
     | Ok p => snd (startProcessTool env cmd auto_shutdown dir m)
               = mkToolResult ("Process started successfully. PID: " ++ show p) false
     | Throw msg => snd (startProcessTool env cmd auto_shutdown dir m)
                    = mkToolResult ("Failed to start process: Error: " ++ msg) true
     end
  /\ text (snd (startProcessTool env cmd auto_shutdown dir m))
     <> "Failed to start process: Error: Process started but no PID was returned"%string.
Proof.
  unfold startProcessTool.
  destruct (startProcess env cmd auto_shutdown dir m) as [m' [p|msg]] eqn:E; simpl.
  - apply startProcess_Ok in E as [_ Hp]. apply Z.eqb_neq in Hp. rewrite Hp. simpl.
    split; [reflexivity|split; [reflexivity|]]. intros H. simpl in H. discriminate H.
  - split; [reflexivity|split; [reflexivity|]].
    apply startProcess_Throw_msg in E as [e ->]. intros H. simpl in H. discriminate H.
Qed.

(** ** What the other operations never do *)

Lemma endProcess_config_cases os p m :
  config (fst (endProcess os p m)) = config m
  \/ exists d k, config (fst (endProcess os p m))
                 = conf_set d (obj_del k (conf_get (config m) d)) (config m).
Proof.
  unfold endProcess.
  destruct (findByPid p (config m)) as [[[d k] r]|]; [|now left].
  destruct (negb (truthy k) || negb (truthy d)); [now left|].
  right. exists (orElse (Some d) (currentCwd m)), k.
  destruct (probe os (pid r)).
  - pose proof (config_tryKill os (pid r) m) as Hc.
    assert (Hcw : currentCwd (fst (tryKill os (pid r) m)) = currentCwd m).
    { unfold tryKill. destruct (hasHandle m (pid r)).
      - destruct (handleKill os (pid r)); reflexivity.
      - destruct (sigterm os (pid r)); reflexivity. }
    destruct (tryKill os (pid r) m) as [m1 ks]. simpl in *.
    unfold removeProcessData. simpl. now rewrite Hc, Hcw.
  - reflexivity.
Qed.

(** X18: no operation other than a start creates a record, changes the
    pid, command, working directory, start time, policy or log file of a
    record, or turns a record back to running: whatever is looked up after
    the operation was there before, with these fields equal, and is running
    only if it was running before. *)
Theorem only_start_creates_or_revives op m d k r' :
  store_ok (config m) = true ->
  isStart op = false ->
  lookupRec (config (exec m op)) d k = Some r' ->
  exists r,
    lookupRec (config m) d k = Some r
    /\ pid r' = pid r /\ command r' = command r /\ cwd r' = cwd r
    /\ startTime r' = startTime r /\ autoShutdown r' = autoShutdown r
    /\ logFile r' = logFile r
    /\ (status r' = running -> status r = running).
Proof.
  intros Hok Hns Hl.
  destruct op as [env cmd autoSd dir|os p|os| |os|processKey p code signal
                 |processKey message]; cbn [exec isStart] in *; try discriminate.
  - destruct (endProcess_config_cases os p m) as [Hc|(d0 & k0 & Hc)]; rewrite Hc in Hl.
    + exists r'. now repeat split.
    + rewrite lookupRec_remove in Hl.
      destruct ((d0 =? d)%string && (k0 =? k)%string); [discriminate|].
      exists r'. now repeat split.
  - rewrite lookupRec_checkProcessHealth in Hl by assumption.
    destruct (lookupRec (config m) d k) as [r|]; [|discriminate]. exists r.
    destruct ((currentCwd m =? d)%string && foundDead os r) eqn:E;
      injection Hl as <-; repeat split; try reflexivity;
      simpl; intros Hs; first [assumption|discriminate Hs].
  - rewrite lookupRec_cleanup in Hl by assumption.
    destruct (lookupRec (config m) d k) as [r|]; [|discriminate]. exists r.
    destruct ((currentCwd m =? d)%string && autoShutdown r); [discriminate|].
    injection Hl as <-. now repeat split.
  - rewrite lookupRec_cleanupStale in Hl by assumption.
    destruct (lookupRec (config m) d k) as [r|]; [|discriminate]. exists r.
    destruct (staleAuto os r); [discriminate|]. injection Hl as <-. now repeat split.
  - rewrite onExit_unfold in Hl.
    destruct (lookupRec (config m) (currentCwd m) processKey) as [r0|] eqn:E0.
    + rewrite lookupRec_updateProcessData in Hl. simpl in Hl.
      destruct ((currentCwd m =? d)%string && (processKey =? k)%string) eqn:Eb.
      * apply andb_prop in Eb as [Ed Ek]. apply String.eqb_eq in Ed, Ek. subst d k.
        rewrite E0 in Hl. injection Hl as <-. exists r0.
        split; [assumption|]. unfold exitedRecord.
        destruct code as [[| |]|]; simpl; repeat split; discriminate.
      * exists r'. now repeat split.
    + exists r'. now repeat split.
  - unfold onReject, getProcessData in Hl.
    change (obj_get (conf_get (config m) (currentCwd m)) processKey)
      with (lookupRec (config m) (currentCwd m) processKey) in Hl.
    destruct (lookupRec (config m) (currentCwd m) processKey) as [r0|] eqn:E0;
      [|exists r'; now repeat split].
    destruct (status_eqb (status r0) running); [|exists r'; now repeat split].
    rewrite lookupRec_updateProcessData in Hl.
    destruct ((currentCwd m =? d)%string && (processKey =? k)%string) eqn:Eb.
    + apply andb_prop in Eb as [Ed Ek]. apply String.eqb_eq in Ed, Ek. subst d k.
      rewrite E0 in Hl. injection Hl as <-. exists r0.
      split; [assumption|]. simpl. repeat split. discriminate.
    + exists r'. now repeat split.
Qed.

(** ** The superseded [endProcess] *)


(** ** The handle table under [endProcess] *)

Lemma hasHandle_tryKill os p m q :
  hasHandle (fst (tryKill os p m)) q
  = hasHandle m q && negb ((p =? q) && handleKill os p).
Proof.
  unfold tryKill. destruct (hasHandle m p) eqn:Eh.
  - destruct (handleKill os p); simpl.
    + rewrite hasHandle_deleteHandle. now rewrite andb_true_r.
    + now rewrite andb_false_r, andb_true_r.
  - assert (Hq : hasHandle m q = hasHandle m q && negb ((p =? q) && handleKill os p)).
    { destruct (p =? q) eqn:Epq; simpl; [|now rewrite andb_true_r].
      apply Z.eqb_eq in Epq. subst q. now rewrite Eh. }
    destruct (sigterm os p); exact Hq.
Qed.

Lemma hasHandle_removeProcessData k dir m q :
  hasHandle (removeProcessData k dir m) q = hasHandle m q.
Proof. reflexivity. Qed.

(** X22: on a registry whose directories are plain keys, where
    [endProcess] on the registry is [endProcess] on the document that
    [Conf] keeps: [endProcess] touches no handle but that of the pid it is
    asked to stop, and drops that one only when the record was found, the
    probe succeeded and the handle accepted the signal; stopping a pid
    whose process is already dead leaves a handle it may still have. *)
Theorem endProcess_handles os p m q :
  store_ok (config m) = true ->
  plainStore (config m) = true ->
  DotPath.endProcess os p (DotPath.embed (config m)) (runningProcesses m)
  = Some (DotPath.embed (config (fst (endProcess os p m))),
          runningProcesses (fst (endProcess os p m)),
          snd (endProcess os p m))
  /\ (~ tracked (config m) p -> hasHandle (fst (endProcess os p m)) q = hasHandle m q)
  /\ (tracked (config m) p ->
      hasHandle (fst (endProcess os p m)) q
      = hasHandle m q && negb ((p =? q) && probe os p && handleKill os p)).
Proof.
  intros Hok Hpl. split; [now apply endProcess_embed|]. split.
  - intros Hnt. destruct (findByPid p (config m)) as [[[d k] r]|] eqn:E.
    + exfalso. apply Hnt. apply tracked_findByPid; [assumption|]. now exists d, k, r.
    + now rewrite endProcess_not_found.
  - intros Ht. apply tracked_findByPid in Ht as (d & k & r & E); [|assumption].
    unfold endProcess. rewrite E.
    apply findByPid_Some in E as (ps & H1 & H2 & H3).
    destruct (store_ok_lookup _ _ _ _ _ Hok H1 H2) as (_ & Td & Tk).
    rewrite Td, Tk. simpl. rewrite H3.
    destruct (probe os p) eqn:Ep.
    + pose proof (hasHandle_tryKill os p m q) as Hk.
      destruct (tryKill os p m) as [m1 ks]. simpl in Hk |- *.
      rewrite hasHandle_removeProcessData, Hk. now rewrite andb_true_r.
    + simpl. rewrite hasHandle_removeProcessData.
      now rewrite andb_false_r, andb_true_r.
Qed.

(** * The further properties on the sample registry *)

Lemma Ex_4242_untracked : ~ tracked (config Ex.manager) 4242.
Proof.
  intros Ht. apply tracked_findByPid in Ht as (d & k & r & E); [|reflexivity].
  discriminate E.
Qed.

Lemma checkProcessHealth_idempotent_witness :
  checkProcessHealth Ex.os_dead (checkProcessHealth Ex.os_dead Ex.manager)
  = checkProcessHealth Ex.os_dead Ex.manager.
Proof. apply (checkProcessHealth_idempotent Ex.os_dead Ex.manager). split; reflexivity. Defined.

Lemma cleanup_scope_witness : cleanup (cleanup Ex.manager) = cleanup Ex.manager.
Proof.
  apply (proj2 (proj2 (cleanup_scope Ex.manager (conj eq_refl eq_refl)))).
Defined.

Lemma reconciliation_leaves_live_records_witness :
  lookupRec (config (cleanupStaleAutoShutdownProcesses Ex.os_alive Ex.manager))
            "/proj" "sleep 60_1"
  = Some (Ex.rec 101 "/proj" running true).
Proof.
  apply (proj2 (proj2 (reconciliation_leaves_live_records Ex.os_alive Ex.manager
                         eq_refl eq_refl))
               "/proj"%string "sleep 60_1"%string (Ex.rec 101 "/proj" running true)
               eq_refl eq_refl eq_refl eq_refl).
Defined.

Lemma start_then_end_witness :
  snd (endProcess Ex.os_alive 4242
         (fst (startProcess Ex.env "sleep 5" true None Ex.manager)))
  = handleKill Ex.os_alive 4242 || negb (probe Ex.os_alive 4242).
Proof.
  apply (proj2 (proj2 (proj2
           (start_then_end Ex.env "sleep 5" true None Ex.os_alive Ex.manager
              (fst (startProcess Ex.env "sleep 5" true None Ex.manager)) 4242
              (conj eq_refl eq_refl) eq_refl eq_refl Ex_4242_untracked eq_refl)))).
Defined.

Lemma startProcess_frame_witness :
  4242 <> 0
  /\ (forall q, hasHandle (fst (startProcess Ex.env "sleep 5" true None Ex.manager)) q
                = hasHandle Ex.manager q || (4242 =? q)).
Proof.
  pose proof (startProcess_frame Ex.env "sleep 5" true None Ex.manager
                (fst (startProcess Ex.env "sleep 5" true None Ex.manager)) 4242 eq_refl)
    as (H1 & H2 & _).
  exact (conj H1 H2).
Defined.

Lemma startProcess_same_key_overwrites_witness :
  hasHandle (fst (startProcess Ex.env "sleep 5" false None
                    (fst (startProcess Ex.env "sleep 5" true None Ex.manager)))) 4242
  = true.
Proof.
  apply (proj1 (proj2 (startProcess_same_key_overwrites
                         Ex.env Ex.env "sleep 5" true false None None Ex.manager
                         (fst (startProcess Ex.env "sleep 5" true None Ex.manager))
                         (fst (startProcess Ex.env "sleep 5" false None
                                 (fst (startProcess Ex.env "sleep 5" true None
                                         Ex.manager))))
                         4242 4242 eq_refl eq_refl eq_refl))).
Defined.

Lemma endProcess_twice_witness :
  endProcess Ex.os_dead 201 (fst (endProcess Ex.os_alive 201 Ex.manager))
  = (fst (endProcess Ex.os_alive 201 Ex.manager), false).
Proof.
  apply (proj1 (proj2 (endProcess_twice Ex.os_alive Ex.os_dead 201 Ex.manager
                         eq_refl eq_refl eq_refl))).
Defined.

Lemma getProcessLogs_unknown_pid_witness :
  getProcessLogs (Ex.fs Ex.tenLines) 4242 5 Ex.manager
  = "No logs available for this process"%string.
Proof.
  apply (getProcessLogs_unknown_pid (Ex.fs Ex.tenLines) 4242 5 Ex.manager eq_refl
           Ex_4242_untracked).
Defined.

Lemma getProcessLogs_after_endProcess_witness :
  getProcessLogs (Ex.fs Ex.tenLines) 101 5 (fst (endProcess Ex.os_alive 101 Ex.manager))
  = "No logs available for this process"%string.
Proof.
  apply (getProcessLogs_after_endProcess (Ex.fs Ex.tenLines) Ex.os_alive 101 5 Ex.manager
           eq_refl eq_refl).
Defined.

Lemma getProcessLogs_lines_witness :
  getProcessLogs (Ex.fs Ex.tenLines) 101 50 Ex.manager
  = join nl (filter nonEmpty (split LF Ex.tenLines)).
Proof.
  apply (proj2 (proj2 (getProcessLogs_lines (Ex.fs Ex.tenLines) 101 50 Ex.manager
                         (Ex.logs ++ "/process_101.log")%string Ex.tenLines
                         eq_refl eq_refl eq_refl))).
  apply Nat.leb_le. reflexivity.
Defined.

Lemma getAllProcessesInDirectory_current_witness :
  obj_get (getAllProcessesInDirectory false Ex.manager)
          (compositeKey (currentCwd Ex.manager) "sleep 60_3")
  = lookupRec (config Ex.manager) (currentCwd Ex.manager) "sleep 60_3".
Proof.
  apply (proj1 (getAllProcessesInDirectory_current Ex.manager eq_refl eq_refl eq_refl)
               "sleep 60_3"%string).
Defined.

Lemma stopAllCommand_outcome_witness :
  lookupRec (config (fst (fst (stopAllCommand Ex.os_alive Ex.manager))))
            (currentCwd Ex.manager) "sleep 60_3" = None
  /\ totalCount (snd (fst (stopAllCommand Ex.os_alive Ex.manager)))
     = List.length (getCurrentCwdProcesses Ex.manager).
Proof.
  pose proof (stopAllCommand_outcome Ex.os_alive Ex.manager eq_refl eq_refl eq_refl
                eq_refl)
    as (H1 & _ & H3 & _).
  exact (conj (H1 "sleep 60_3"%string) H3).
Defined.

Lemma only_start_creates_or_revives_witness :
  exists r,
    lookupRec (config Ex.manager) "/proj" "sleep 60_1" = Some r
    /\ pid (with_status stopped (Ex.rec 101 "/proj" running true)) = pid r
    /\ command (with_status stopped (Ex.rec 101 "/proj" running true)) = command r
    /\ cwd (with_status stopped (Ex.rec 101 "/proj" running true)) = cwd r
    /\ startTime (with_status stopped (Ex.rec 101 "/proj" running true)) = startTime r
    /\ autoShutdown (with_status stopped (Ex.rec 101 "/proj" running true))
       = autoShutdown r
    /\ logFile (with_status stopped (Ex.rec 101 "/proj" running true)) = logFile r
    /\ (status (with_status stopped (Ex.rec 101 "/proj" running true)) = running ->
        status r = running).
Proof.
  apply (only_start_creates_or_revives (OpHealth Ex.os_dead) Ex.manager
           "/proj" "sleep 60_1" (with_status stopped (Ex.rec 101 "/proj" running true))
           eq_refl eq_refl eq_refl).
Defined.

Lemma reachable_store_ok_witness :
  store_ok (config (run [OpStart Ex.env "sleep 5" true None; OpCleanup]
                        (fresh "/proj" Ex.logs))) = true.
Proof.
  apply (reachable_store_ok "/proj" Ex.logs
           (run [OpStart Ex.env "sleep 5" true None; OpCleanup] (fresh "/proj" Ex.logs))
           eq_refl).
  exists [OpStart Ex.env "sleep 5" true None; OpCleanup]. reflexivity.
Defined.

Lemma start_then_cleanup_witness :
  lookupRec (config (cleanup (fst (startProcess Ex.env "sleep 5" false None Ex.manager))))
            (currentCwd Ex.manager) (generateProcessKey "sleep 5" (nowKey Ex.env))
  = (if false then None
     else Some (startedRecord Ex.env "sleep 5" false None Ex.manager 4242))
  /\ hasHandle (cleanup (fst (startProcess Ex.env "sleep 5" false None Ex.manager))) 4242
     = true.
Proof.
  apply (start_then_cleanup Ex.env "sleep 5" false None Ex.manager
           (fst (startProcess Ex.env "sleep 5" false None Ex.manager)) 4242
           (conj eq_refl eq_refl) eq_refl).
Defined.

Lemma endProcess_handles_witness :
  hasHandle (fst (endProcess Ex.os_dead 101 Ex.manager)) 101
  = hasHandle Ex.manager 101
    && negb ((101 =? 101) && probe Ex.os_dead 101 && handleKill Ex.os_dead 101).
Proof.
  apply (proj2 (proj2 (endProcess_handles Ex.os_dead 101 Ex.manager 101 eq_refl eq_refl))).
  exists "/proj"%string, "sleep 60_1"%string, (Ex.rec 101 "/proj" running true).
  split; reflexivity.
Defined.
